(** * The upload pipeline of the music-player web application

    A shallow embedding of the Express server (both revisions kept in the
    repository: the one that tracks [currentFilePath] and the earlier one
    that tracks [lastFile]) and of the browser-side [validateFile].

    Node's callbacks, promises and [async] functions are embedded in a
    state-and-exception monad over a [World] made of the file system, the
    module-level variable of the server and the trace of observable
    events.  An asynchronous operation is performed at the point where
    the program starts it, and its callback runs as a task of its own: an
    exception that escapes such a task is not seen by the [try] that
    surrounds the call which scheduled it. *)

From Stdlib Require Import ZArith List Lia.
From Stdlib.Strings Require Import String Ascii Byte.
From Stdlib Require Import DecimalString DecimalPos.
From stdpp Require Import base option list strings gmap.
Import ListNotations.

Local Open Scope Z_scope.
Local Open Scope string_scope.
Local Open Scope list_scope.

(** ** Buffers *)

(** A [Buffer] is a sequence of bytes. *)
Abbreviation Buffer := (list byte).

Definition hex_digit (n : N) : ascii :=
  match n with
  | 0%N => "0" | 1%N => "1" | 2%N => "2" | 3%N => "3"
  | 4%N => "4" | 5%N => "5" | 6%N => "6" | 7%N => "7"
  | 8%N => "8" | 9%N => "9" | 10%N => "a" | 11%N => "b"
  | 12%N => "c" | 13%N => "d" | 14%N => "e" | _ => "f"
  end%char.

Definition byte_to_hex (b : byte) : string :=
  String (hex_digit (Byte.to_N b / 16)) (String (hex_digit (Byte.to_N b mod 16)) EmptyString).

Fixpoint hex_encode (data : Buffer) : string :=
  match data with
  | [] => EmptyString
  | b :: rest => byte_to_hex b +:+ hex_encode rest
  end.

(** [buf.toString('hex', start, end)]: the bytes of [buf] from [start]
    up to (not including) [end], clamped to the buffer, two lowercase hex
    digits for each. *)
Definition Buffer_toString_hex (buf : Buffer) (start end_ : nat) : string :=
  hex_encode (take (end_ - start) (drop start buf)).

(** The signature the server looks for: the bytes [49 44 33]. *)
Definition ID3_signature : Buffer := [x49; x44; x33]%byte.

(** ** Exceptions, events and the world *)

Record Exn := MkExn { exn_name : string; exn_message : string }.

Definition TypeError_undefined (prop : string) : Exn :=
  MkExn "TypeError" ("Cannot read properties of undefined (reading '" +:+ prop +:+ "')").

Definition ENOENT (syscall path : string) : Exn :=
  MkExn "Error" ("ENOENT: no such file or directory, " +:+ syscall +:+ " '" +:+ path +:+ "'").

Inductive Response :=
| ResJson (filePath : string)
| ResStatusSend (status : Z) (body : string).

Inductive Event :=
| EvWriteFile (path : string) (size : nat)
| EvUnlink (path : string) (existed : bool)
| EvReadFile (path : string) (data : option Buffer)
| EvParseFile (path : string) (ok : bool)
| EvRemoveTags (path : string) (ok : bool)
| EvAssign (path : string)
| EvConsoleLog (text : string)
| EvConsoleError (text : string)
| EvResponse (r : Response)
| EvUncaught (e : Exn).

(** [G] is the type of the server's module-level variable. *)
Record World (G : Type) := MkWorld {
  fs : gmap string Buffer;
  global : G;
  trace : list Event
}.
Arguments MkWorld {G} _ _ _.
Arguments fs {G} _.
Arguments global {G} _.
Arguments trace {G} _.

Definition emit {G} (e : Event) (w : World G) : World G :=
  MkWorld (fs w) (global w) (trace w ++ [e]).

Definition set_fs {G} (f : gmap string Buffer) (w : World G) : World G :=
  MkWorld f (global w) (trace w).

Definition set_global {G} (g : G) (w : World G) : World G :=
  MkWorld (fs w) g (trace w).

(** ** The monad of server code

    A computation takes a world and returns the world it leaves together
    with either the exception it threw ([inl]) or its value ([inr]). *)
Definition M (G A : Type) : Type := World G -> World G * (Exn + A).

Definition ret {G A} (a : A) : M G A := fun w => (w, inr a).

Definition throw {G A} (e : Exn) : M G A := fun w => (w, inl e).

Definition bind {G A B} (m : M G A) (k : A -> M G B) : M G B :=
  fun w =>
    match m w with
    | (w', inl e) => (w', inl e)
    | (w', inr a) => k a w'
    end.

Declare Scope js_scope.
Delimit Scope js_scope with js.
Notation "x <- m ;; k" := (bind m (fun x => k))
  (at level 100, m at next level, right associativity) : js_scope.
Notation "m ;; k" := (bind m (fun _ => k))
  (at level 100, right associativity) : js_scope.
Local Open Scope js_scope.

(** [try { body } catch (error) { handler error }] *)
Definition try_catch {G A} (body : M G A) (handler : Exn -> M G A) : M G A :=
  fun w =>
    match body w with
    | (w', inl e) => handler e w'
    | r => r
    end.

Definition tell {G} (e : Event) : M G unit := fun w => (emit e w, inr tt).

Definition console_log {G} (text : string) : M G unit := tell (EvConsoleLog text).
Definition console_error {G} (text : string) : M G unit := tell (EvConsoleError text).
Definition respond {G} (r : Response) : M G unit := tell (EvResponse r).

(** A callback that the event loop runs on its own: whatever it throws
    reaches no handler of the program and is reported as uncaught.  Node
    ends the process on an uncaught exception: the events a run shows
    after an [EvUncaught] are those that would follow if it did not. *)
Definition task {G} (body : M G unit) : M G unit :=
  fun w =>
    match body w with
    | (w', inl e) => (emit (EvUncaught e) w', inr tt)
    | r => r
    end.

(** A settled promise: rejected with an exception or fulfilled. *)
Definition Promise : Type := Exn + unit.

(** Calling an [async function]: the call itself never throws, the
    outcome of the body settles the promise it returns. *)
Definition async {G} (body : M G unit) : M G Promise :=
  fun w => let '(w', r) := body w in (w', inr r).

(** A promise the caller drops: a rejection is left unhandled. *)
Definition forget {G} (p : M G Promise) : M G unit :=
  r <- p ;;
  match r with
  | inl e => tell (EvUncaught e)
  | inr _ => ret tt
  end.

(** ** The file system *)

(** [fs.readFile(path, callback)] *)
Definition readFile {G} (path : string)
    (callback : option Exn -> option Buffer -> M G unit) : M G unit :=
  fun w =>
    match fs w !! path with
    | Some data =>
        task (callback None (Some data)) (emit (EvReadFile path (Some data)) w)
    | None =>
        task (callback (Some (ENOENT "open" path)) None) (emit (EvReadFile path None) w)
    end.

(** [await unlink(path)] of [node:fs/promises]: a rejection is thrown at
    the [await]. *)
Definition unlink_await {G} (path : string) : M G unit :=
  fun w =>
    match fs w !! path with
    | Some _ => (emit (EvUnlink path true) (set_fs (delete path (fs w)) w), inr tt)
    | None => (emit (EvUnlink path false) w, inl (ENOENT "unlink" path))
    end.

(** [fs.unlink(path, callback)] *)
Definition unlink_cb {G} (path : string) (callback : option Exn -> M G unit) : M G unit :=
  fun w =>
    match fs w !! path with
    | Some _ =>
        task (callback None) (emit (EvUnlink path true) (set_fs (delete path (fs w)) w))
    | None =>
        task (callback (Some (ENOENT "unlink" path))) (emit (EvUnlink path false) w)
    end.

(** [data.toString('hex', start, end)] where [data] may be [undefined]. *)
Definition toString_hex {G} (data : option Buffer) (start end_ : nat) : M G string :=
  match data with
  | Some buf => ret (Buffer_toString_hex buf start end_)
  | None => throw (TypeError_undefined "toString")
  end.

(** ** What the server takes from its environment

    The libraries the server calls are not part of the program; they come
    in as an environment.  [mm_parseFile data] tells whether
    [mm.parseFile] resolves on a file holding [data];
    [NodeID3_removeTags data] is the content the call of
    [NodeID3.removeTags] leaves in the file when it returns, whatever
    value it returns (the server does not read it: a call that reports
    a failure by returning [false] or an [Error] is a call that returns,
    with the content it left), or [None] when the call throws;
    [fileSize_exceeded size limit] is
    multer's test of an upload of [size] bytes against [limits.fileSize]
    (where exactly the library draws the line is the library's matter). *)
Record Env := MkEnv {
  cwd : string;
  mm_parseFile : Buffer -> bool;
  NodeID3_removeTags : Buffer -> option Buffer;
  fileSize_exceeded : nat -> Z -> bool
}.

(** [path.join] on segments that are already normalized. *)
Definition path_join (segments : list string) : string := String.concat "/" segments.

(** JavaScript's rendering of an integer inside a string concatenation. *)
Definition Number_toString (n : Z) : string :=
  match n with
  | Z0 => "0"
  | Zpos p => NilEmpty.string_of_uint (Pos.to_uint p)
  | Zneg p => "-" +:+ NilEmpty.string_of_uint (Pos.to_uint p)
  end.

(** A file part of the multipart request, as multer hands it to
    [fileFilter] and to the storage engine. *)
Record File := MkFile {
  fieldname : string;
  originalname : string;
  mimetype : string;
  content : Buffer
}.

(** [req.file] once multer has stored the file. *)
Record StoredFile := MkStoredFile {
  stored_of : File;
  filename : string
}.

(** [req]: [req.file] is [undefined] when the request carried no file. *)
Record Request := MkRequest { req_file : option StoredFile }.

(** The two readings of the system the file name is built from:
    [Date.now()] and [Math.round(Math.random() * 1E9)]. *)
Record Clock := MkClock { Date_now : Z; random_1E9 : Z }.

Section Libraries.
Context {G : Type}.
Variable E : Env.

(** [await mm.parseFile(filePath)] *)
Definition mm_parseFile_await (filePath : string) : M G unit :=
  fun w =>
    match fs w !! filePath with
    | Some data =>
        if mm_parseFile E data
        then (emit (EvParseFile filePath true) w, inr tt)
        else (emit (EvParseFile filePath false) w,
              inl (MkExn "Error" "music-metadata could not parse the file"))
    | None => (emit (EvParseFile filePath false) w, inl (ENOENT "open" filePath))
    end.

(** [NodeID3.removeTags(filePath);], the synchronous form, its value
    dropped.  The event tells whether the call returned with the file in
    place; on a path without a file the call returns the error of the
    read instead of throwing it, and nothing is written. *)
Definition NodeID3_removeTags_sync (filePath : string) : M G unit :=
  fun w =>
    match fs w !! filePath with
    | Some data =>
        match NodeID3_removeTags E data with
        | Some data' =>
            (emit (EvRemoveTags filePath true) (set_fs (<[filePath := data']> (fs w)) w),
             inr tt)
        | None =>
            (emit (EvRemoveTags filePath false) w,
             inl (MkExn "Error" "node-id3 could not remove the tags"))
        end
    | None => (emit (EvRemoveTags filePath false) w, inr tt)
    end.

(** [req.file.filename] *)
Definition req_file_filename (req : Request) : M G string :=
  match req_file req with
  | Some f => ret (filename f)
  | None => throw (TypeError_undefined "filename")
  end.

(** Express hands an error that reaches [next] to its default error
    handler, which answers with status 500. *)
Definition next_error (err : Exn) : M G unit :=
  respond (ResStatusSend 500 (exn_message err)).

(** A route handler as Express runs it: what the handler throws while
    it runs goes to [next]. *)
Definition express_run (handler : M G unit) : M G unit :=
  try_catch handler next_error.

(** *** multer, as the server configures it *)

(** [destination] of [multer.diskStorage]. *)
Definition storage_destination : string := path_join [cwd E; "uploads"].

(** [filename] of [multer.diskStorage]. *)
Definition storage_filename (file : File) (clock : Clock) : string :=
  let uniqueSuffix :=
    Number_toString (Date_now clock) +:+ "-" +:+ Number_toString (random_1E9 clock) in
  fieldname file +:+ "-" +:+ uniqueSuffix.

(** [fileFilter]: the call [cb(err, accept)] as [inl err] or [inr accept]. *)
Definition fileFilter (file : File) : Exn + bool :=
  if String.eqb (mimetype file) "audio/mpeg"
  then inr true
  else inl (MkExn "Error" "Invalid file type. Only MP3 files are allowed.").

(** [limits.fileSize] *)
Definition limits_fileSize : Z := 7000000.

(** The stream of the file written under the name the storage chose. *)
Definition disk_write (path : string) (data : Buffer) : M G unit :=
  fun w => (emit (EvWriteFile path (length data)) (set_fs (<[path := data]> (fs w)) w), inr tt).

(** [upload.single(name)]: a file under another field is refused, the
    filter is asked, then the file is stored unless it passes the size
    limit, and the next handler runs with [req.file] set. *)
Definition upload_single (name : string) (part : option File) (clock : Clock)
    (next : Request -> M G unit) : M G unit :=
  match part with
  | None => next (MkRequest None)
  | Some file =>
      if negb (String.eqb (fieldname file) name)
      then next_error (MkExn "MulterError" "Unexpected field")
      else
        match fileFilter file with
        | inl err => next_error err
        | inr false => next (MkRequest None)
        | inr true =>
            if fileSize_exceeded E (length (content file)) limits_fileSize
            then next_error (MkExn "MulterError" "File too large")
            else
              let name' := storage_filename file clock in
              disk_write (path_join [storage_destination; name']) (content file) ;;
              next (MkRequest (Some (MkStoredFile file name')))
        end
  end.
End Libraries.

(** ** The server that keeps [currentFilePath] *)
Module Server.
Abbreviation W := (World (option string)).
Abbreviation JS := (M (option string)).

Section Code.
Variable E : Env.

(** [let currentFilePath = null;] *)
Definition currentFilePath (w : W) : option string := global w.

Definition init (disk : gmap string Buffer) : W := MkWorld disk None [].

(** Whether [if (currentFilePath)] takes the branch. *)
Definition truthy (v : option string) : option string :=
  match v with
  | Some EmptyString => None
  | other => other
  end.

Definition deleteFile (fileToDelete : string) : JS Promise :=
  async
    (try_catch
       (unlink_await fileToDelete ;;
        console_log "file deleted successfully")
       (fun error => console_error ("error: " +:+ exn_message error))).

Definition checkMagicNumber (filePath : string) (callback : bool -> JS unit) : JS unit :=
  try_catch
    (readFile filePath (fun err data =>
       hex <- toString_hex data 0 3 ;;
       if String.eqb hex "494433" then callback true else ret tt))
    (fun error => console_error "Error while reading the file.").

Definition parseMP3Metadata (filePath : string) (callback : bool -> JS unit) : JS Promise :=
  async
    (try_catch
       (mm_parseFile_await E filePath ;;
        NodeID3_removeTags_sync E filePath ;;
        callback true)
       (fun error =>
          forget (deleteFile filePath) ;;
          console_error "Error while parsing the file.")).

(** [currentFilePath = filePath;] *)
Definition assign_currentFilePath (filePath : string) : JS unit :=
  fun w => (emit (EvAssign filePath) (set_global (Some filePath) w), inr tt).

(** [if (currentFilePath) { deleteFile(currentFilePath); }] *)
Definition delete_previous : JS unit :=
  fun w =>
    match truthy (currentFilePath w) with
    | Some previous => forget (deleteFile previous) w
    | None => ret tt w
    end.

(** The arrow function given to [parseMP3Metadata]. *)
Definition on_parsed (filePath name : string) (parseResult : bool) : JS unit :=
  if parseResult
  then
    assign_currentFilePath filePath ;;
    respond (ResJson ("/uploads/" +:+ name))
  else respond (ResStatusSend 500 "Error while parsing the file.").

(** The arrow function given to [checkMagicNumber]. *)
Definition on_checked (filePath name : string) (result : bool) : JS unit :=
  if result
  then forget (parseMP3Metadata filePath (on_parsed filePath name))
  else forget (deleteFile filePath).

(** The function given to [app.post("/upload", ...)]. *)
Definition upload_handler (req : Request) : JS unit :=
  name <- req_file_filename req ;;
  let filePath := path_join [cwd E; "uploads"; name] in
  delete_previous ;;
  checkMagicNumber filePath (on_checked filePath name).

(** [app.post("/upload", upload.single('mp3file'), upload_handler)] *)
Definition post_upload (part : option File) (clock : Clock) : JS unit :=
  upload_single E "mp3file" part clock (fun req => express_run (upload_handler req)).

(** The worlds the server can be in: it starts on some disk with the
    variable [null], and serves one upload after another. *)
Inductive reachable : W -> Prop :=
| reach_init disk : reachable (init disk)
| reach_upload w part clock :
    reachable w -> reachable (fst (post_upload part clock w)).
End Code.
End Server.

(** ** The server that keeps [lastFile] *)
Module ServerAlt.
Abbreviation W := (World string).
Abbreviation JS := (M string).

Section Code.
Variable E : Env.

(** [let lastFile = '';] *)
Definition lastFile (w : W) : string := global w.

Definition init (disk : gmap string Buffer) : W := MkWorld disk "" [].

(** [(err) => { if (err) throw err; }] *)
Definition rethrow (err : option Exn) : JS unit :=
  match err with
  | Some e => throw e
  | None => ret tt
  end.

Definition parseMP3Metadata (filePath : string) : JS Promise :=
  async
    (try_catch
       (mm_parseFile_await E filePath ;;
        NodeID3_removeTags_sync E filePath)
       (fun error =>
          console_error "Error while parsing the file." ;;
          unlink_cb filePath rethrow)).

Definition checkMagicNumber (filePath : string) (callback : bool -> JS unit) : JS unit :=
  readFile filePath (fun err data =>
    rethrow err ;;
    hex <- toString_hex data 0 3 ;;
    if String.eqb hex "494433" then callback true else ret tt).

(** [promise.then(on_fulfilled).catch(on_rejected)], the chain dropped. *)
Definition then_catch (p : JS Promise) (on_fulfilled : unit -> JS unit)
    (on_rejected : Exn -> JS unit) : JS unit :=
  r <- p ;;
  forget (async (try_catch
                   (match r with
                    | inl e => throw e
                    | inr v => on_fulfilled v
                    end)
                   on_rejected)).

(** [lastFile = filePath;] *)
Definition assign_lastFile (filePath : string) : JS unit :=
  fun w => (emit (EvAssign filePath) (set_global filePath w), inr tt).

(** [if (lastFile) { fs.unlink(lastFile, ...); }] *)
Definition delete_previous : JS unit :=
  fun w =>
    match lastFile w with
    | EmptyString => ret tt w
    | previous => unlink_cb previous rethrow w
    end.

(** The arrow function given to [checkMagicNumber]. *)
Definition on_checked (filePath name : string) (result : bool) : JS unit :=
  if result
  then
    then_catch (parseMP3Metadata filePath)
      (fun _ => respond (ResJson ("/uploads/" +:+ name)))
      (fun error =>
         console_log (exn_message error) ;;
         respond (ResStatusSend 500 "Error while parsing the file."))
  else unlink_cb filePath rethrow.

Definition upload_handler (req : Request) : JS unit :=
  name <- req_file_filename req ;;
  let filePath := path_join [cwd E; "uploads"; name] in
  delete_previous ;;
  assign_lastFile filePath ;;
  checkMagicNumber filePath (on_checked filePath name).

Definition post_upload (part : option File) (clock : Clock) : JS unit :=
  upload_single E "mp3file" part clock (fun req => express_run (upload_handler req)).
End Code.
End ServerAlt.

(** ** The browser script *)
Module Client.

(** Regular expressions, as far as [regexName] needs them, matched by
    derivatives. *)
Inductive regex :=
| Void
| Eps
| Class (member : ascii -> bool)
| Cat (r s : regex)
| Alt (r s : regex)
| Star (r : regex).

Fixpoint nullable (r : regex) : bool :=
  match r with
  | Void => false
  | Eps => true
  | Class _ => false
  | Cat r s => nullable r && nullable s
  | Alt r s => nullable r || nullable s
  | Star _ => true
  end.

Fixpoint deriv (c : ascii) (r : regex) : regex :=
  match r with
  | Void => Void
  | Eps => Void
  | Class member => if member c then Eps else Void
  | Cat r s =>
      if nullable r then Alt (Cat (deriv c r) s) (deriv c s) else Cat (deriv c r) s
  | Alt r s => Alt (deriv c r) (deriv c s)
  | Star r => Cat (deriv c r) (Star r)
  end.

(** [^r$] tested on [s]: the whole of [s] has to match. *)
Fixpoint test (r : regex) (s : string) : bool :=
  match s with
  | EmptyString => nullable r
  | String c rest => test (deriv c r) rest
  end.

Definition Plus (r : regex) : regex := Cat r (Star r).
Definition Chr (c : ascii) : regex := Class (Ascii.eqb c).

Fixpoint Lit (s : string) : regex :=
  match s with
  | EmptyString => Eps
  | String c rest => Cat (Chr c) (Lit rest)
  end.

Definition between (lo hi c : ascii) : bool :=
  (N_of_ascii lo <=? N_of_ascii c)%N && (N_of_ascii c <=? N_of_ascii hi)%N.

(** The class [[a-zA-Z0-9-_(). ]]. *)
Definition name_class (c : ascii) : bool :=
  between "a" "z" c || between "A" "Z" c || between "0" "9" c
  || Ascii.eqb "-" c || Ascii.eqb "_" c || Ascii.eqb "(" c || Ascii.eqb ")" c
  || Ascii.eqb "." c || Ascii.eqb " " c.

(** [/^[a-zA-Z0-9-_(). ]+\.mp3$/] *)
Definition regexName : regex := Cat (Plus (Class name_class)) (Lit ".mp3").

(** The [File] of the browser.  A name is taken as a string of 8-bit
    characters, which is what the names [regexName] accepts are made of. *)
Record BrowserFile := MkBrowserFile {
  name : string;
  type : string;
  size : Z
}.

(** [validateFile]: what it writes with [console.error] and what it
    returns. *)
Definition validateFile (file : BrowserFile) : list string * bool :=
  if negb (String.eqb (type file) "audio/mpeg")
  then (["Error while trying to validate the file type, ensure that you submitted an MP3 file."],
        false)
  else if size file >=? 7000000
  then (["Error while trying to validate file size, ensure that the size is less than 7MB."],
        false)
  else if negb (test regexName (name file)) || (Z.of_nat (String.length (name file)) >? 70)
  then (["Error while trying to validate the name, ensure that it does not contain special characters and is less than 70 characters."],
        false)
  else ([], true).

(** The shape of a name the way the specification words it: a
    non-empty stem of letters, digits, hyphen, underscore, parentheses,
    period and space, followed by [.mp3]. *)
Definition is_letter (c : ascii) : bool :=
  let n := N_of_ascii c in
  ((97 <=? n) && (n <=? 122) || (65 <=? n) && (n <=? 90))%N.

Definition is_digit (c : ascii) : bool :=
  let n := N_of_ascii c in ((48 <=? n) && (n <=? 57))%N.

Definition allowed_char (c : ascii) : bool :=
  is_letter c || is_digit c
  || existsb (Ascii.eqb c) ["-"; "_"; "("; ")"; "."; " "]%char.

Fixpoint all_chars (p : ascii -> bool) (s : string) : bool :=
  match s with
  | EmptyString => true
  | String c rest => p c && all_chars p rest
  end.

Definition well_formed_name (s : string) : Prop :=
  exists stem, s = stem +:+ ".mp3" /\ stem <> EmptyString /\ all_chars allowed_char stem = true.

(** The strings a regular expression denotes. *)
Inductive matches : regex -> string -> Prop :=
| matches_eps : matches Eps EmptyString
| matches_class member c :
    member c = true -> matches (Class member) (String c EmptyString)
| matches_cat r s u v : matches r u -> matches s v -> matches (Cat r s) (u +:+ v)
| matches_alt_l r s u : matches r u -> matches (Alt r s) u
| matches_alt_r r s u : matches s u -> matches (Alt r s) u
| matches_star_nil r : matches (Star r) EmptyString
| matches_star_cons r u v :
    matches r u -> matches (Star r) v -> matches (Star r) (u +:+ v).

End Client.

(** ** Vocabulary of the statements *)

(** The first three bytes are [49 44 33]. *)
Definition has_signature (data : Buffer) : bool :=
  match data with
  | b0 :: b1 :: b2 :: _ => Byte.eqb b0 x49 && Byte.eqb b1 x44 && Byte.eqb b2 x33
  | _ => false
  end.

(** The responses among some events. *)
Fixpoint responses (events : list Event) : list Response :=
  match events with
  | [] => []
  | EvResponse r :: rest => r :: responses rest
  | _ :: rest => responses rest
  end.

(** The exceptions that escaped among some events. *)
Fixpoint uncaught (events : list Event) : list Exn :=
  match events with
  | [] => []
  | EvUncaught e :: rest => e :: uncaught rest
  | _ :: rest => uncaught rest
  end.

(** The paths assigned to the server's variable among some events. *)
Fixpoint assignments (events : list Event) : list string :=
  match events with
  | [] => []
  | EvAssign p :: rest => p :: assignments rest
  | _ :: rest => assignments rest
  end.

(** Where the handler looks for the file of a request. *)
Definition upload_path (E : Env) (name : string) : string :=
  path_join [cwd E; "uploads"; name].

(** What [deleteFile path] leaves in the trace on a given disk. *)
Definition deletion_events (path : string) (disk : gmap string Buffer) : list Event :=
  match disk !! path with
  | Some _ => [EvUnlink path true; EvConsoleLog "file deleted successfully"]
  | None =>
      [EvUnlink path false;
       EvConsoleError ("error: " +:+ exn_message (ENOENT "unlink" path))]
  end.

(** The world in which the handler reads the signature: the one it was
    called in, less the file [currentFilePath] named. *)
Definition before_check (w : Server.W) : Server.W :=
  match Server.truthy (Server.currentFilePath w) with
  | Some previous =>
      MkWorld (delete previous (fs w)) (global w)
        (trace w ++ deletion_events previous (fs w))
  | None => w
  end.

(** The same for the server that keeps [lastFile]. *)
Definition before_check_alt (E : Env) (name : string) (w : ServerAlt.W) : ServerAlt.W :=
  fst ((ServerAlt.delete_previous ;; ServerAlt.assign_lastFile (upload_path E name)) w).

(** The four events of an upload that leads to the assignment of
    [currentFilePath]. *)
Definition verified_assignment (path : string) (data : Buffer) : list Event :=
  [EvReadFile path (Some data); EvParseFile path true; EvRemoveTags path true;
   EvAssign path].

(** The uploaded file of a request with the name the storage gave it. *)
Definition request_of (file : File) (name : string) : Request :=
  MkRequest (Some (MkStoredFile file name)).

(** [file] under another client-supplied name. *)
Definition rename (file : File) (client_name : string) : File :=
  MkFile (fieldname file) client_name (mimetype file) (content file).

(** The events of a parse that fails, up to the clean-up of the file. *)
Definition failure_events (E : Env) (path : string) (data : Buffer) : list Event :=
  (if mm_parseFile E data
   then [EvParseFile path true; EvRemoveTags path false]
   else [EvParseFile path false])
  ++ [EvUnlink path true; EvConsoleLog "file deleted successfully";
      EvConsoleError "Error while parsing the file."].

(** What the tag remover leaves of a file the parser accepts. *)
Definition sanitized (E : Env) (data : Buffer) : option Buffer :=
  if mm_parseFile E data then NodeID3_removeTags E data else None.

(** The four ways the handler of [Server] deals with the file stored
    under [name]: it cannot read it, finds no signature, fails to parse
    or strip it, or publishes it. *)
Inductive handled (E : Env) (name : string) (w : Server.W) : Server.W -> Prop :=
| handled_unreadable :
    fs (before_check w) !! upload_path E name = None ->
    handled E name w
      (MkWorld (fs (before_check w)) (global w)
         (trace (before_check w)
          ++ [EvReadFile (upload_path E name) None;
              EvUncaught (TypeError_undefined "toString")]))
| handled_unsigned data :
    fs (before_check w) !! upload_path E name = Some data ->
    has_signature data = false ->
    handled E name w
      (MkWorld (fs (before_check w)) (global w)
         (trace (before_check w) ++ [EvReadFile (upload_path E name) (Some data)]))
| handled_unparsed data :
    fs (before_check w) !! upload_path E name = Some data ->
    has_signature data = true ->
    sanitized E data = None ->
    handled E name w
      (MkWorld (delete (upload_path E name) (fs (before_check w))) (global w)
         (trace (before_check w)
          ++ EvReadFile (upload_path E name) (Some data)
             :: failure_events E (upload_path E name) data))
| handled_published data data' :
    fs (before_check w) !! upload_path E name = Some data ->
    has_signature data = true ->
    mm_parseFile E data = true ->
    NodeID3_removeTags E data = Some data' ->
    handled E name w
      (MkWorld (<[upload_path E name := data']> (fs (before_check w)))
         (Some (upload_path E name))
         (trace (before_check w)
          ++ verified_assignment (upload_path E name) data
          ++ [EvResponse (ResJson ("/uploads/" +:+ name))])).

(** [currentFilePath] is [null], or it holds a path whose last assignment
    came right after the read of a file with the signature and the parse
    and tag removal that succeeded on it. *)
Definition slot_justified (E : Env) (w : Server.W) : Prop :=
  Server.currentFilePath w = None
  \/ exists path data before after,
       Server.currentFilePath w = Some path
       /\ trace w = before ++ verified_assignment path data ++ after
       /\ has_signature data = true
       /\ mm_parseFile E data = true
       /\ is_Some (NodeID3_removeTags E data)
       /\ assignments after = [].

(** The world multer leaves to the handler once it stored [file]. *)
Definition stored (E : Env) (file : File) (clock : Clock) (w : Server.W) : Server.W :=
  MkWorld (<[upload_path E (storage_filename file clock) := content file]> (fs w))
    (global w)
    (trace w ++ [EvWriteFile (upload_path E (storage_filename file clock))
                   (length (content file))]).

(** *** Sample data *)

(** An environment to run the server in: the parser wants at least four
    bytes, the tag remover drops the three bytes of the signature and
    throws if that leaves another signature in front, and the size limit
    is passed by a file larger than it. *)
Definition sample_env : Env :=
  MkEnv "/srv/app"
    (fun data => Nat.leb 4 (length data))
    (fun data => if has_signature (drop 3 data) then None else Some (drop 3 data))
    (fun size limit => (limit <? Z.of_nat size)%Z).

(** The same with a limit that a file of exactly its size passes too. *)
Definition sample_env_strict : Env :=
  MkEnv "/srv/app"
    (fun data => Nat.leb 4 (length data))
    (fun data => if has_signature (drop 3 data) then None else Some (drop 3 data))
    (fun size limit => (limit <=? Z.of_nat size)%Z).

Definition tagged_mp3 : Buffer := [x49; x44; x33; xff; xfb; x90; x00]%byte.
Definition truncated_mp3 : Buffer := [x49; x44; x33]%byte.
Definition not_mp3 : Buffer := [x00; x00; x00; xff; xfb; x90]%byte.

Definition sample_clock : Clock := MkClock 1700000000000 123456789.

Definition old_path : string := "/srv/app/uploads/mp3file-1700000000000-123456789".
Definition new_name : string := "mp3file-1700000000042-5".
Definition new_path : string := "/srv/app/uploads/mp3file-1700000000042-5".

Definition sample_file (data : Buffer) : File :=
  MkFile "mp3file" "track-01.mp3" "audio/mpeg" data.

Definition traversal_file : File :=
  MkFile "mp3file" "../../etc/passwd.mp3" "audio/mpeg" tagged_mp3.

Definition traversal_browser_file : Client.BrowserFile :=
  Client.MkBrowserFile "../../etc/passwd.mp3" "audio/mpeg" 50.

(** What the server makes of [traversal_file] on an empty disk. *)
Definition traversal_upload (E : Env) : Server.W :=
  fst (Server.post_upload E (Some traversal_file) sample_clock (Server.init ∅)).

(** A server that published [old_path] and has just stored a new upload
    holding [data]. *)
Definition serving (data : Buffer) : Server.W :=
  MkWorld (<[new_path := data]> {[old_path := [xff; xfb; x90; x00]%byte]})
    (Some old_path) [].

(** What the handler leaves of [serving data]. *)
Definition served (data : Buffer) : Server.W :=
  fst (Server.upload_handler sample_env (request_of (sample_file data) new_name)
         (serving data)).

(** The server that keeps [lastFile], in the same situation. *)
Definition serving_alt (data : Buffer) : ServerAlt.W :=
  MkWorld (<[new_path := data]> {[old_path := [xff; xfb; x90; x00]%byte]}) old_path [].

Definition served_alt (data : Buffer) : ServerAlt.W :=
  fst (ServerAlt.upload_handler sample_env (request_of (sample_file data) new_name)
         (serving_alt data)).

(** Two uploads in a row that the storage gives the same name. *)
Definition first_upload : Server.W :=
  fst (Server.post_upload sample_env (Some (sample_file tagged_mp3)) sample_clock
         (Server.init ∅)).

Definition colliding_upload : Server.W :=
  fst (Server.post_upload sample_env (Some (sample_file tagged_mp3)) sample_clock
         first_upload).

(** [currentFilePath] is [null] or a path of the uploads directory under
    a name of letters, digits and hyphens. *)
Definition slot_in_uploads (E : Env) (w : Server.W) : Prop :=
  Server.currentFilePath w = None
  \/ exists name,
       Server.currentFilePath w = Some (cwd E +:+ "/uploads/" +:+ name)
       /\ Client.all_chars
            (fun c => Client.is_letter c || Client.is_digit c || Ascii.eqb c "-")
            name = true.

(** An environment whose tag remover returns without having removed
    anything, the way the library reports a failure: the file is left
    as it is. *)
Definition keeping_env : Env :=
  MkEnv "/srv/app"
    (fun data => Nat.leb 4 (length data))
    (fun data => Some data)
    (fun size limit => (limit <? Z.of_nat size)%Z).

Definition served_keeping (data : Buffer) : Server.W :=
  fst (Server.upload_handler keeping_env (request_of (sample_file data) new_name)
         (serving data)).

(** *** More sample data *)

Definition second_clock : Clock := MkClock 1700000000042 5.

(** A disk with a file the server did not store. *)
Definition bystander_path : string := "/srv/app/uploads/.gitkeep".

Definition serving_beside (data : Buffer) : Server.W :=
  MkWorld (<[bystander_path := [x0a]%byte]> (fs (serving data))) (Some old_path) [].

(** Two uploads in a row that the storage names differently. *)
Definition second_upload : Server.W :=
  fst (Server.post_upload sample_env (Some (sample_file tagged_mp3)) second_clock
         first_upload).

Definition wrong_type_file : File :=
  MkFile "mp3file" "notes.txt" "text/plain" not_mp3.

(** ** The search route

    The handler of [app.post('/search', ...)] in each of the two server
    files.  It touches neither the disk nor the variable of the upload
    route, so it is given by the events it produces.  express-validator
    and [fetch] are the environment: a request comes with the messages
    of the validation errors the chain found ([result.errors], in the
    order of the chain) and with [req.body.query] as the chain left it. *)
Module Search.

Inductive Body :=
| BodyData (data : string)
| BodyText (text : string)
| BodyJsonString (text : string)
| BodyErrorsUndefined.

Inductive Event :=
| Fetch (url : string)
| ConsoleError (text : string)
| Send (status : Z) (body : Body)
| Unhandled (e : Exn).

Record Env := MkEnv {
  api_key : string;
  motor_id : string;
  fetch_json : string -> Exn + string
}.

Record Request := MkRequest {
  query : string;
  errors : list string
}.

(** The characters [encodeURIComponent] leaves as they are. *)
Definition unreserved (c : ascii) : bool :=
  Client.is_letter c || Client.is_digit c
  || existsb (Ascii.eqb c) ["-"; "_"; "."; "!"; "~"; "*"; "'"; "("; ")"]%char.

Definition HEX_digit (n : N) : ascii :=
  match n with
  | 0%N => "0" | 1%N => "1" | 2%N => "2" | 3%N => "3"
  | 4%N => "4" | 5%N => "5" | 6%N => "6" | 7%N => "7"
  | 8%N => "8" | 9%N => "9" | 10%N => "A" | 11%N => "B"
  | 12%N => "C" | 13%N => "D" | 14%N => "E" | _ => "F"
  end%char.

Definition percent (c : ascii) : string :=
  String "%" (String (HEX_digit (N_of_ascii c / 16))
                (String (HEX_digit (N_of_ascii c mod 16)) EmptyString)).

(** [encodeURIComponent] on a string given by the bytes of its UTF-8
    form: every byte that is not an unreserved character is written as a
    percent sign and two upper-case hex digits. *)
Fixpoint encodeURIComponent (s : string) : string :=
  match s with
  | EmptyString => EmptyString
  | String c rest =>
      (if unreserved c then String c EmptyString else percent c)
      +:+ encodeURIComponent rest
  end.

(** A string that has no UTF-8 form holds a surrogate outside a pair.
    Such a string is given by the bytes of its generalized form, in
    which the lone surrogate is the byte ED followed by a byte from A0
    to BF and one more; a string that has a UTF-8 form never has ED
    before a byte of that range. *)
Fixpoint has_lone_surrogate (s : string) : bool :=
  match s with
  | EmptyString => false
  | String c rest =>
      match rest with
      | String d _ =>
          (N_of_ascii c =? 237)%N && (160 <=? N_of_ascii d)%N && (N_of_ascii d <=? 191)%N
      | EmptyString => false
      end
      || has_lone_surrogate rest
  end.

Definition URIError : Exn := MkExn "URIError" "URI malformed".

(** The call [encodeURIComponent(req.body.query)] of the handlers: it
    throws on a string with a lone surrogate. *)
Definition encode_query (s : string) : Exn + string :=
  if has_lone_surrogate s then inl URIError else inr (encodeURIComponent s).

(** The template literal of the URL. *)
Definition search_url (E : Env) (userQuery : string) : string :=
  "https://www.googleapis.com/customsearch/v1?key=" +:+ api_key E
  +:+ "&cx=" +:+ motor_id E +:+ "&q=" +:+ userQuery.

Definition fetch_failed (error : Exn) : string :=
  "Error when fetching google custom search api : "
  +:+ exn_name error +:+ ": " +:+ exn_message error.

Definition is_send (e : Event) : bool :=
  match e with
  | Send _ _ => true
  | _ => false
  end.

Definition ERR_HTTP_HEADERS_SENT : Exn :=
  MkExn "Error" "Cannot set headers after they are sent to the client".

(** [res.send] and [res.json] after the events [so_far]: the response
    goes out, unless one went out already, in which case the call
    throws. *)
Definition send (so_far : list Event) (status : Z) (body : Body) : list Event * option Exn :=
  if existsb is_send so_far
  then (so_far, Some ERR_HTTP_HEADERS_SENT)
  else (so_far ++ [Send status body], None).

(** The end of an [async] handler nobody awaits: what it throws is an
    unhandled rejection. *)
Definition settle (outcome : list Event * option Exn) : list Event :=
  match outcome with
  | (events, Some e) => events ++ [Unhandled e]
  | (events, None) => events
  end.

(** The [catch] block of both handlers, entered after the events
    [so_far]. *)
Definition caught (so_far : list Event) (error : Exn) : list Event * option Exn :=
  send (so_far ++ [ConsoleError (fetch_failed error)]) 500
    (BodyText "Error while fetching data.").

(** The handler of the server that keeps [currentFilePath]: only the
    successful fetch returns; after the [catch] block, as after a failed
    validation, the handler goes on to
    [res.send({ errors: result.errors.msg })], where [result.errors] is
    an array and has no [msg]. *)
Definition search_handler (E : Env) (req : Request) : list Event :=
  match errors req with
  | [] =>
      match encode_query (query req) with
      | inl error =>
          match caught [] error with
          | (events, Some e) => events ++ [Unhandled e]
          | (events, None) => settle (send events 200 BodyErrorsUndefined)
          end
      | inr userQuery =>
          let url := search_url E userQuery in
          match fetch_json E url with
          | inr data => settle (send [Fetch url] 200 (BodyData data))
          | inl error =>
              match caught [Fetch url] error with
              | (events, Some e) => events ++ [Unhandled e]
              | (events, None) => settle (send events 200 BodyErrorsUndefined)
              end
          end
      end
  | _ :: _ => settle (send [] 200 BodyErrorsUndefined)
  end.

(** The handler of the server that keeps [lastFile]: a failed validation
    is answered with status 400 and the first message, and returns. *)
Definition search_handler_alt (E : Env) (req : Request) : list Event :=
  match errors req with
  | first :: _ => settle (send [] 400 (BodyJsonString first))
  | [] =>
      match encode_query (query req) with
      | inl error => settle (caught [] error)
      | inr userQuery =>
          let url := search_url E userQuery in
          match fetch_json E url with
          | inr data => settle (send [Fetch url] 200 (BodyData data))
          | inl error => settle (caught [Fetch url] error)
          end
      end
  end.

Fixpoint sends (events : list Event) : list (Z * Body) :=
  match events with
  | [] => []
  | Send status body :: rest => (status, body) :: sends rest
  | _ :: rest => sends rest
  end.

Fixpoint fetches (events : list Event) : list string :=
  match events with
  | [] => []
  | Fetch url :: rest => url :: fetches rest
  | _ :: rest => fetches rest
  end.

Fixpoint unhandled (events : list Event) : list Exn :=
  match events with
  | [] => []
  | Unhandled e :: rest => e :: unhandled rest
  | _ :: rest => unhandled rest
  end.

(** The byte a percent triple stands for. *)
Definition hex_value (c : ascii) : N :=
  let n := N_of_ascii c in
  if (n <? 58)%N then (n - 48)%N else (n - 55)%N.

Definition percent_value (hi lo : ascii) : ascii :=
  ascii_of_N (hex_value hi * 16 + hex_value lo).

End Search.

(** A search environment whose fetch fails, and one whose fetch echoes
    the URL. *)
Definition offline : Search.Env :=
  Search.MkEnv "KEY" "CX" (fun _ => inl (MkExn "TypeError" "fetch failed")).

Definition online : Search.Env :=
  Search.MkEnv "KEY" "CX" (fun url => inr url).

(** The query made of the surrogate D800 alone: the bytes ED A0 80. *)
Definition lone_surrogate_query : string :=
  String (ascii_of_nat 237) (String (ascii_of_nat 160) (String (ascii_of_nat 128) EmptyString)).

(** * Properties *)

(** ** The signature test *)

Lemma byte_to_hex_49 (b : byte) : String.eqb (byte_to_hex b) "49" = Byte.eqb b x49.
Proof. destruct b; vm_compute; reflexivity. Qed.

Lemma byte_to_hex_44 (b : byte) : String.eqb (byte_to_hex b) "44" = Byte.eqb b x44.
Proof. destruct b; vm_compute; reflexivity. Qed.

Lemma byte_to_hex_33 (b : byte) : String.eqb (byte_to_hex b) "33" = Byte.eqb b x33.
Proof. destruct b; vm_compute; reflexivity. Qed.

Lemma eqb_hex_cons (b : byte) (s : string) (h l : ascii) (t : string) :
  String.eqb (byte_to_hex b +:+ s) (String h (String l t))
  = String.eqb (byte_to_hex b) (String h (String l EmptyString)) && String.eqb s t.
Proof.
  unfold byte_to_hex. simpl.
  destruct (Ascii.eqb _ h); [|reflexivity].
  destruct (Ascii.eqb _ l); [|reflexivity].
  destruct s; reflexivity.
Qed.

Lemma eqb_hex_short (b : byte) (h l c : ascii) (t : string) :
  String.eqb (byte_to_hex b) (String h (String l (String c t))) = false.
Proof.
  unfold byte_to_hex. simpl.
  destruct (Ascii.eqb _ h); [|reflexivity].
  destruct (Ascii.eqb _ l); reflexivity.
Qed.

(** The comparison of the hex string with ["494433"] is the test that the
    first three bytes are [49 44 33]. *)
Lemma toString_hex_signature (data : Buffer) :
  String.eqb (Buffer_toString_hex data 0 3) "494433" = has_signature data.
Proof.
  unfold Buffer_toString_hex.
  destruct data as [|b0 [|b1 [|b2 rest]]];
    change (take (3 - 0) (drop 0 ?l)) with (take 3 l);
    cbn [take firstn hex_encode has_signature].
  - reflexivity.
  - rewrite eqb_hex_cons. cbn. now rewrite andb_false_r.
  - rewrite !eqb_hex_cons. cbn. now rewrite !andb_false_r.
  - rewrite !eqb_hex_cons, byte_to_hex_49, byte_to_hex_44, byte_to_hex_33.
    cbn. rewrite andb_true_r. now rewrite andb_assoc.
Qed.

Lemma has_signature_take (data : Buffer) :
  has_signature data = true <-> take 3 data = ID3_signature.
Proof.
  unfold ID3_signature.
  destruct data as [|b0 [|b1 [|b2 rest]]]; cbn [has_signature take]; try (split; discriminate).
  rewrite !andb_true_iff. split.
  - intros [[H0 H1] H2].
    apply Byte.byte_dec_bl in H0, H1, H2. now subst.
  - intros H. injection H as -> -> ->. repeat split.
Qed.

(** ** Traces *)

Lemma responses_app (a b : list Event) : responses (a ++ b) = responses a ++ responses b.
Proof.
  induction a as [|e a IH]; [reflexivity|].
  destruct e; cbn; rewrite ?IH; reflexivity.
Qed.

Lemma uncaught_app (a b : list Event) : uncaught (a ++ b) = uncaught a ++ uncaught b.
Proof.
  induction a as [|e a IH]; [reflexivity|].
  destruct e; cbn; rewrite ?IH; reflexivity.
Qed.

Lemma assignments_app (a b : list Event) :
  assignments (a ++ b) = assignments a ++ assignments b.
Proof.
  induction a as [|e a IH]; [reflexivity|].
  destruct e; cbn; rewrite ?IH; reflexivity.
Qed.

Lemma deletion_events_quiet (path : string) (disk : gmap string Buffer) :
  responses (deletion_events path disk) = []
  /\ uncaught (deletion_events path disk) = []
  /\ assignments (deletion_events path disk) = [].
Proof. unfold deletion_events. destruct (disk !! path); repeat split. Qed.

(** ** The functions of the server, run *)

Ltac js_unfold :=
  unfold forget, async, try_catch, readFile, unlink_await, unlink_cb, task,
    toString_hex, req_file_filename, mm_parseFile_await, NodeID3_removeTags_sync,
    respond, console_log, console_error, bind, ret, throw, tell,
    emit, set_fs, set_global in *.

Ltac js_done := js_unfold; cbn; rewrite <- ?app_assoc; cbn; reflexivity.

Lemma deleteFile_run (path : string) (w : Server.W) :
  Server.deleteFile path w
  = (MkWorld (delete path (fs w)) (global w) (trace w ++ deletion_events path (fs w)),
     inr (inr tt)).
Proof.
  unfold Server.deleteFile, deletion_events. js_unfold.
  destruct (fs w !! path) eqn:Hp; cbn.
  - rewrite <- ?app_assoc; reflexivity.
  - rewrite <- app_assoc. now rewrite delete_id.
Qed.

Lemma delete_previous_run (w : Server.W) :
  Server.delete_previous w = (before_check w, inr tt).
Proof.
  unfold Server.delete_previous, before_check.
  destruct (Server.truthy (Server.currentFilePath w)) as [previous|]; [|reflexivity].
  unfold forget, bind. rewrite deleteFile_run. reflexivity.
Qed.

(** [checkMagicNumber] calls back with [true] when the signature is
    there, does nothing more when it is not, and lets a [TypeError]
    escape when the file could not be read. *)
Lemma checkMagicNumber_run (filePath : string) (callback : bool -> Server.JS unit)
    (w : Server.W) :
  Server.checkMagicNumber filePath callback w
  = match fs w !! filePath with
    | Some data =>
        if has_signature data
        then task (callback true) (emit (EvReadFile filePath (Some data)) w)
        else (emit (EvReadFile filePath (Some data)) w, inr tt)
    | None =>
        (emit (EvUncaught (TypeError_undefined "toString")) (emit (EvReadFile filePath None) w),
         inr tt)
    end.
Proof.
  unfold Server.checkMagicNumber, try_catch, readFile.
  destruct (fs w !! filePath) as [data|]; [|reflexivity].
  unfold task, bind, toString_hex, ret. rewrite toString_hex_signature.
  destruct (has_signature data); [|reflexivity].
  destruct (callback true _) as [w' [e|[]]]; reflexivity.
Qed.

Lemma on_parsed_true (filePath name : string) (w : Server.W) :
  Server.on_parsed filePath name true w
  = (MkWorld (fs w) (Some filePath)
       (trace w ++ [EvAssign filePath; EvResponse (ResJson ("/uploads/" +:+ name))]),
     inr tt).
Proof.
  unfold Server.on_parsed, Server.assign_currentFilePath. js_unfold. cbn.
  rewrite <- ?app_assoc; reflexivity.
Qed.

(** [parseMP3Metadata] on a file that is there. *)
Lemma parseMP3Metadata_run (E : Env) (filePath name : string) (data : Buffer)
    (w : Server.W) :
  fs w !! filePath = Some data ->
  Server.parseMP3Metadata E filePath (Server.on_parsed filePath name) w
  = (match sanitized E data with
     | Some data' =>
         MkWorld (<[filePath := data']> (fs w)) (Some filePath)
           (trace w ++ [EvParseFile filePath true; EvRemoveTags filePath true;
                        EvAssign filePath;
                        EvResponse (ResJson ("/uploads/" +:+ name))])
     | None =>
         MkWorld (delete filePath (fs w)) (global w)
           (trace w ++ failure_events E filePath data)
     end, inr (inr tt)).
Proof.
  intros Hdata. unfold sanitized, failure_events.
  unfold Server.parseMP3Metadata, async, try_catch, bind at 1, mm_parseFile_await.
  rewrite Hdata.
  destruct (mm_parseFile E data).
  - unfold bind at 1, NodeID3_removeTags_sync. cbn [emit fs]. rewrite Hdata.
    destruct (NodeID3_removeTags E data) as [data'|].
    + rewrite on_parsed_true. js_done.
    + unfold forget, bind. rewrite deleteFile_run. cbn.
      unfold deletion_events. rewrite Hdata. js_done.
  - unfold forget, bind. rewrite deleteFile_run. cbn.
    unfold deletion_events. rewrite Hdata. js_done.
Qed.

Lemma before_check_global (w : Server.W) : global (before_check w) = global w.
Proof. unfold before_check. now destruct (Server.truthy _). Qed.

Lemma before_check_trace (w : Server.W) :
  exists evs,
    trace (before_check w) = trace w ++ evs
    /\ responses evs = [] /\ uncaught evs = [] /\ assignments evs = [].
Proof.
  unfold before_check. destruct (Server.truthy _) as [previous|]; cbn.
  - eexists. split; [reflexivity|]. apply deletion_events_quiet.
  - exists []. now rewrite app_nil_r.
Qed.

Lemma before_check_previous (w : Server.W) (previous : string) :
  Server.truthy (Server.currentFilePath w) = Some previous ->
  fs (before_check w) !! previous = None.
Proof. unfold before_check. intros ->. cbn. apply lookup_delete_eq. Qed.

Lemma upload_handler_run (E : Env) (file : File) (name : string) (w : Server.W) :
  Server.upload_handler E (request_of file name) w
  = Server.checkMagicNumber (upload_path E name)
      (Server.on_checked E (upload_path E name) name) (before_check w).
Proof.
  unfold Server.upload_handler, request_of, req_file_filename. cbn [req_file filename].
  unfold bind, ret. rewrite delete_previous_run. reflexivity.
Qed.

(** The handler always returns, and what it leaves is one of the four
    outcomes. *)
Lemma upload_handler_handled (E : Env) (file : File) (name : string) (w : Server.W) :
  snd (Server.upload_handler E (request_of file name) w) = inr tt
  /\ handled E name w (fst (Server.upload_handler E (request_of file name) w)).
Proof.
  rewrite upload_handler_run, checkMagicNumber_run.
  destruct (fs (before_check w) !! upload_path E name) as [data|] eqn:Hdata.
  - destruct (has_signature data) eqn:Hsig.
    + unfold task, Server.on_checked, forget, bind.
      rewrite (parseMP3Metadata_run E _ _ data) by exact Hdata.
      cbn [ret fst snd emit fs global trace]. split; [reflexivity|].
      destruct (sanitized E data) as [data'|] eqn:Hs.
      * unfold sanitized in Hs. destruct (mm_parseFile E data) eqn:Hp; [|discriminate].
        rewrite <- app_assoc.
        apply (handled_published E name w data data'); assumption.
      * rewrite <- app_assoc, before_check_global.
        apply (handled_unparsed E name w data); assumption.
    + unfold emit. cbn [fst snd]. split; [reflexivity|].
      rewrite before_check_global.
      apply (handled_unsigned E name w data); assumption.
  - unfold emit. cbn [fst snd fs global trace]. split; [reflexivity|].
    rewrite <- app_assoc, before_check_global.
    apply handled_unreadable; assumption.
Qed.

Lemma failure_events_quiet (E : Env) (path : string) (data : Buffer) :
  responses (failure_events E path data) = []
  /\ uncaught (failure_events E path data) = []
  /\ assignments (failure_events E path data) = [].
Proof. unfold failure_events. destruct (mm_parseFile E data); repeat split. Qed.

(** Unless it publishes the file, the handler leaves the variable alone
    and sends nothing. *)
Lemma handled_effect (E : Env) (name : string) (w w' : Server.W) :
  handled E name w w' ->
  (global w' = global w
   /\ exists evs, trace w' = trace w ++ evs
                  /\ responses evs = [] /\ assignments evs = [])
  \/ (exists data before,
        global w' = Some (upload_path E name)
        /\ trace w' = trace w ++ before ++ verified_assignment (upload_path E name) data
                        ++ [EvResponse (ResJson ("/uploads/" +:+ name))]
        /\ has_signature data = true
        /\ mm_parseFile E data = true
        /\ is_Some (NodeID3_removeTags E data)).
Proof.
  destruct (before_check_trace w) as (del & Htr & Hr & _ & Ha).
  intros [Hnone | data Hdata Hsig | data Hdata Hsig Hs | data data' Hdata Hsig Hp Hs];
    cbn [global trace].
  - left. split; [reflexivity|]. rewrite Htr, <- app_assoc. eexists. split; [reflexivity|].
    rewrite responses_app, assignments_app, Hr, Ha. now split.
  - left. split; [reflexivity|]. rewrite Htr, <- app_assoc. eexists. split; [reflexivity|].
    rewrite responses_app, assignments_app, Hr, Ha. now split.
  - left. split; [reflexivity|]. rewrite Htr, <- app_assoc. eexists. split; [reflexivity|].
    destruct (failure_events_quiet E (upload_path E name) data) as (Hfr & _ & Hfa).
    rewrite responses_app, assignments_app, Hr, Ha. cbn [responses assignments app].
    now rewrite Hfr, Hfa.
  - right. exists data, del. rewrite Htr, <- app_assoc. rewrite Hs. eauto 10.
Qed.

(** ** The claims about the handler *)

(** C2 (what the code does where the claim asks for a deletion and a
    rejection): when the stored file does not begin with 49 44 33,
    [checkMagicNumber] does not call back, so the branch of the handler
    that deletes the file is never taken: the file stays on the disk and
    the request gets no response.  Nothing runs after the read (no
    parse, no tag removal, no assignment) and [currentFilePath] is left
    as it was. *)
Theorem unsigned_upload_stays_and_gets_no_response (E : Env) (file : File)
    (name : string) (w : Server.W) (data : Buffer) :
  fs (before_check w) !! upload_path E name = Some data ->
  has_signature data = false ->
  fs (fst (Server.upload_handler E (request_of file name) w)) !! upload_path E name
  = Some data
  /\ responses (trace (fst (Server.upload_handler E (request_of file name) w)))
     = responses (trace w)
  /\ Server.currentFilePath (fst (Server.upload_handler E (request_of file name) w))
     = Server.currentFilePath w
  /\ trace (fst (Server.upload_handler E (request_of file name) w))
     = trace (before_check w) ++ [EvReadFile (upload_path E name) (Some data)].
Proof.
  intros Hdata Hsig.
  destruct (upload_handler_handled E file name w) as [_ H].
  destruct (before_check_trace w) as (del & Htr & Hr & _).
  destruct H as [Hnone | d Hd Hs | d Hd Hs Hsan | d d' Hd Hs Hp Hrm];
    try congruence.
  assert (d = data) as -> by congruence.
  cbn [fs global trace]. unfold Server.currentFilePath.
  split; [exact Hdata|]. split; [|split; reflexivity].
  rewrite Htr, !responses_app, Hr. cbn. now rewrite !app_nil_r.
Qed.

(** In [serving not_mp3] the stored file lacks the signature: it is
    still there when the handler is done, and nothing was sent. *)
Lemma unsigned_upload_stays_and_gets_no_response_witness :
  fs (served not_mp3) !! new_path = Some not_mp3
  /\ responses (trace (served not_mp3)) = []
  /\ Server.currentFilePath (served not_mp3) = Some old_path
  /\ trace (served not_mp3)
     = trace (before_check (serving not_mp3)) ++ [EvReadFile new_path (Some not_mp3)].
Proof.
  apply (unsigned_upload_stays_and_gets_no_response sample_env (sample_file not_mp3)
           new_name (serving not_mp3) not_mp3); vm_compute; reflexivity.
Defined.

(** C5 (what the code does where the claim asks for a rejection): when
    the stored file has the signature but the parse or the tag removal
    fails, the handler deletes the file and leaves [currentFilePath] as
    it was, but it sends no response: [parseMP3Metadata] never calls back
    with anything but [true], so the branch that answers 500 is never
    taken. *)
Theorem unparsed_upload_gets_no_response (E : Env) (file : File) (name : string)
    (w : Server.W) (data : Buffer) :
  fs (before_check w) !! upload_path E name = Some data ->
  has_signature data = true ->
  sanitized E data = None ->
  fs (fst (Server.upload_handler E (request_of file name) w)) !! upload_path E name = None
  /\ Server.currentFilePath (fst (Server.upload_handler E (request_of file name) w))
     = Server.currentFilePath w
  /\ responses (trace (fst (Server.upload_handler E (request_of file name) w)))
     = responses (trace w).
Proof.
  intros Hdata Hsig Hsan.
  destruct (upload_handler_handled E file name w) as [_ H].
  destruct (before_check_trace w) as (del & Htr & Hr & _).
  destruct H as [Hnone | d Hd Hs | d Hd Hs Hsan' | d d' Hd Hs Hp Hrm];
    try congruence.
  - assert (d = data) as -> by congruence.
    cbn [fs global trace]. unfold Server.currentFilePath.
    split; [apply lookup_delete_eq|]. split; [reflexivity|].
    destruct (failure_events_quiet E (upload_path E name) data) as (Hfr & _).
    rewrite Htr, !responses_app, Hr. cbn [responses app]. rewrite Hfr.
    now rewrite !app_nil_r.
  - assert (d = data) as -> by congruence.
    unfold sanitized in Hsan. rewrite Hp in Hsan. congruence.
Qed.

(** [truncated_mp3] has the signature and is too short for the parser of
    [sample_env]. *)
Lemma unparsed_upload_gets_no_response_witness :
  fs (served truncated_mp3) !! new_path = None
  /\ Server.currentFilePath (served truncated_mp3) = Some old_path
  /\ responses (trace (served truncated_mp3)) = [].
Proof.
  apply (unparsed_upload_gets_no_response sample_env (sample_file truncated_mp3) new_name
           (serving truncated_mp3) truncated_mp3); vm_compute; reflexivity.
Defined.

(** C6 (what the code does where the claim asks that nothing escapes):
    when the stored file cannot be read, the callback of [readFile] calls
    [toString] on [undefined]; the [TypeError] is thrown outside the
    [try] of [checkMagicNumber], reaches no handler, and the request gets
    no response. *)
Theorem unreadable_upload_throws_uncaught (E : Env) (file : File) (name : string)
    (w : Server.W) :
  fs (before_check w) !! upload_path E name = None ->
  uncaught (trace (fst (Server.upload_handler E (request_of file name) w)))
  = uncaught (trace w) ++ [TypeError_undefined "toString"]
  /\ responses (trace (fst (Server.upload_handler E (request_of file name) w)))
     = responses (trace w).
Proof.
  intros Hnone.
  destruct (upload_handler_handled E file name w) as [_ H].
  destruct (before_check_trace w) as (del & Htr & Hr & Hu & _).
  destruct H as [_ | d Hd Hs | d Hd Hs Hsan' | d d' Hd Hs Hp Hrm];
    try congruence.
  cbn [trace]. rewrite Htr, !responses_app, !uncaught_app, Hr, Hu. cbn.
  now rewrite !app_nil_r.
Qed.

(** The second of two uploads that were given the same name: the handler
    deletes the file [currentFilePath] names, which is the one just
    stored, and then cannot read it. *)
Lemma unreadable_upload_throws_uncaught_witness :
  uncaught (trace colliding_upload) = [TypeError_undefined "toString"]
  /\ responses (trace colliding_upload)
     = [ResJson "/uploads/mp3file-1700000000000-123456789"].
Proof.
  apply (unreadable_upload_throws_uncaught sample_env (sample_file tagged_mp3)
           (storage_filename (sample_file tagged_mp3) sample_clock)
           (stored sample_env (sample_file tagged_mp3) sample_clock first_upload)).
  vm_compute. reflexivity.
Defined.

(** C1 (as amended): when [currentFilePath] names a file, the handler
    starts by deleting it, before it reads the new file, and whatever
    becomes of the new file the previous one is gone when the handler is
    done. *)
Theorem previous_file_is_deleted_first (E : Env) (file : File) (name : string)
    (w : Server.W) (previous : string) :
  Server.truthy (Server.currentFilePath w) = Some previous ->
  fs (fst (Server.upload_handler E (request_of file name) w)) !! previous = None
  /\ exists data rest,
       trace (fst (Server.upload_handler E (request_of file name) w))
       = trace w ++ deletion_events previous (fs w)
           ++ EvReadFile (upload_path E name) data :: rest.
Proof.
  intros Hprev.
  destruct (upload_handler_handled E file name w) as [_ H].
  pose proof (before_check_previous w previous Hprev) as Hgone.
  assert (trace (before_check w) = trace w ++ deletion_events previous (fs w)) as Htr.
  { unfold before_check. now rewrite Hprev. }
  destruct H as [Hnone | d Hd Hs | d Hd Hs Hsan | d d' Hd Hs Hp Hrm];
    cbn [fs trace]; rewrite Htr, <- ?app_assoc.
  - split; [assumption|]. eexists _, _. reflexivity.
  - split; [assumption|]. eexists _, _. reflexivity.
  - split; [|eexists _, _; reflexivity].
    destruct (decide (upload_path E name = previous)) as [->|Hne].
    + apply lookup_delete_eq.
    + now rewrite lookup_delete_ne.
  - split; [|eexists _, _; reflexivity].
    destruct (decide (upload_path E name = previous)) as [Heq|Hne].
    + rewrite Heq in Hd. congruence.
    + now rewrite lookup_insert_ne.
Qed.

Lemma previous_file_is_deleted_first_witness :
  fs (served tagged_mp3) !! old_path = None
  /\ exists data rest,
       trace (served tagged_mp3)
       = trace (serving tagged_mp3) ++ deletion_events old_path (fs (serving tagged_mp3))
           ++ EvReadFile new_path data :: rest.
Proof.
  apply (previous_file_is_deleted_first sample_env (sample_file tagged_mp3) new_name
           (serving tagged_mp3) old_path).
  reflexivity.
Defined.

(** C1 as stated fails: the server publishes [old_path], an upload
    without the signature arrives, and the published file is deleted
    although the new file is never parsed, stripped or assigned; the
    variable goes on naming the deleted file. *)
Lemma eager_deletion_counterexample :
  fs (serving not_mp3) !! old_path = Some [xff; xfb; x90; x00]%byte
  /\ fs (served not_mp3) !! old_path = None
  /\ trace (served not_mp3)
     = [EvUnlink old_path true; EvConsoleLog "file deleted successfully";
        EvReadFile new_path (Some not_mp3)]
  /\ Server.currentFilePath (served not_mp3) = Some old_path.
Proof. vm_compute. repeat split. Qed.

Lemma app_one_neq {A} (l : list A) (x : A) : l <> l ++ [x].
Proof.
  intros H. apply (f_equal length) in H. rewrite length_app in H. cbn in H. lia.
Qed.

Lemma truthy_of_path (w : Server.W) (previous : string) :
  Server.currentFilePath w = Some previous ->
  previous <> EmptyString ->
  Server.truthy (Server.currentFilePath w) = Some previous.
Proof. intros -> Hne. destruct previous; [congruence|reflexivity]. Qed.

(** C3 (what the code does where the claim asks that no tag remains):
    when the handler answers with the JSON of a successful upload,
    [currentFilePath] holds the path of the new file and the file it
    named before is no longer on the disk; the new file had the
    signature, was parsed, and holds what the call of
    [NodeID3.removeTags] left in it.  The handler does not read the
    value of that call: when the call reports that it removed nothing,
    the file is published as it was uploaded. *)
Theorem successful_upload_publishes_what_removeTags_left (E : Env) (file : File)
    (name : string) (w : Server.W) (answer : string) :
  responses (trace (fst (Server.upload_handler E (request_of file name) w)))
  = responses (trace w) ++ [ResJson answer] ->
  answer = "/uploads/" +:+ name
  /\ Server.currentFilePath (fst (Server.upload_handler E (request_of file name) w))
     = Some (upload_path E name)
  /\ (forall previous,
        Server.currentFilePath w = Some previous ->
        previous <> EmptyString ->
        fs (fst (Server.upload_handler E (request_of file name) w)) !! previous = None)
  /\ exists data data',
       fs (before_check w) !! upload_path E name = Some data
       /\ has_signature data = true
       /\ mm_parseFile E data = true
       /\ NodeID3_removeTags E data = Some data'
       /\ fs (fst (Server.upload_handler E (request_of file name) w))
          !! upload_path E name = Some data'.
Proof.
  destruct (upload_handler_handled E file name w) as [_ H].
  destruct (before_check_trace w) as (del & Htr & Hr & _).
  destruct H as [Hnone | d Hd Hs | d Hd Hs Hsan | d d' Hd Hs Hp Hrm];
    cbn [fs global trace]; rewrite Htr, !responses_app, Hr; cbn [responses app];
    rewrite ?app_nil_r.
  - intros Habs. now apply app_one_neq in Habs.
  - intros Habs. now apply app_one_neq in Habs.
  - destruct (failure_events_quiet E (upload_path E name) d) as (Hfr & _).
    rewrite Hfr, app_nil_r. intros Habs. now apply app_one_neq in Habs.
  - intros Hans. apply app_inv_head in Hans. injection Hans as <-.
    split; [reflexivity|]. split; [reflexivity|]. split.
    + intros previous Hcur Hne.
      pose proof (before_check_previous w previous (truthy_of_path w previous Hcur Hne))
        as Hgone.
      destruct (decide (upload_path E name = previous)) as [Heq|Hne'].
      * rewrite Heq in Hd. congruence.
      * now rewrite lookup_insert_ne.
    + exists d, d'. repeat (split; [assumption|]). apply lookup_insert_eq.
Qed.

(** Under [keeping_env] the call of the tag remover leaves the file as
    it is: the upload is answered with a success, the previous file is
    deleted, and the published file is the uploaded one, signature and
    tag included. *)
Lemma successful_upload_publishes_what_removeTags_left_witness :
  responses (trace (served_keeping tagged_mp3))
  = [ResJson "/uploads/mp3file-1700000000042-5"]
  /\ Server.currentFilePath (served_keeping tagged_mp3) = Some new_path
  /\ fs (served_keeping tagged_mp3) !! old_path = None
  /\ fs (served_keeping tagged_mp3) !! new_path = Some tagged_mp3
  /\ has_signature tagged_mp3 = true.
Proof.
  destruct (successful_upload_publishes_what_removeTags_left keeping_env
              (sample_file tagged_mp3) new_name (serving tagged_mp3)
              "/uploads/mp3file-1700000000042-5")
    as (_ & Hslot & Hgone & data & data' & Hstaged & _ & _ & Hleft & Hfile).
  { vm_compute. reflexivity. }
  split; [vm_compute; reflexivity|]. split; [exact Hslot|].
  split; [apply (Hgone old_path); [reflexivity|discriminate]|].
  split; [|reflexivity].
  vm_compute in Hstaged. injection Hstaged as <-.
  cbn in Hleft. injection Hleft as <-. exact Hfile.
Defined.

(** ** The worlds the server reaches *)

Lemma string_app_assoc (a b c : string) : (a +:+ b) +:+ c = a +:+ b +:+ c.
Proof.
  induction a as [|x a IH]; [reflexivity|].
  change (String x ((a +:+ b) +:+ c) = String x (a +:+ b +:+ c)). now f_equal.
Qed.

(** multer stores the file where the handler looks for it. *)
Lemma stored_where_read (E : Env) (name : string) :
  path_join [storage_destination E; name] = upload_path E name.
Proof.
  unfold storage_destination, upload_path, path_join. cbn [String.concat].
  now rewrite !string_app_assoc.
Qed.

(** A request either ends in multer or in Express with one response and
    nothing else, or it reaches the handler with the file stored. *)
Lemma post_upload_cases (E : Env) (part : option File) (clock : Clock) (w : Server.W) :
  (exists r, fst (Server.post_upload E part clock w) = emit (EvResponse r) w)
  \/ (exists file,
        part = Some file
        /\ fieldname file = "mp3file"
        /\ mimetype file = "audio/mpeg"
        /\ fileSize_exceeded E (length (content file)) limits_fileSize = false
        /\ handled E (storage_filename file clock) (stored E file clock w)
             (fst (Server.post_upload E part clock w))).
Proof.
  unfold Server.post_upload, upload_single.
  destruct part as [file|].
  - destruct (String.eqb (fieldname file) "mp3file") eqn:Hfield; cbn [negb].
    + unfold fileFilter.
      destruct (String.eqb (mimetype file) "audio/mpeg") eqn:Hmime.
      * destruct (fileSize_exceeded E _ _) eqn:Hsize.
        -- left. eexists. reflexivity.
        -- right. exists file. apply String.eqb_eq in Hfield, Hmime.
           repeat (split; [assumption || reflexivity|]).
           unfold bind, disk_write, express_run, try_catch.
           rewrite stored_where_read.
           change (emit _ (set_fs _ w)) with (stored E file clock w).
           change (MkRequest _) with (request_of file (storage_filename file clock)).
           destruct (upload_handler_handled E file (storage_filename file clock)
                       (stored E file clock w)) as [Hret Hh].
           destruct (Server.upload_handler E _ _) as [w' r]. cbn in Hret. subst r.
           exact Hh.
      * left. eexists. reflexivity.
    + left. eexists. reflexivity.
  - left. eexists. reflexivity.
Qed.

Lemma emit_response_justified (E : Env) (r : Response) (w : Server.W) :
  slot_justified E w -> slot_justified E (emit (EvResponse r) w).
Proof.
  intros [Hnull | (path & data & before & after & Hcur & Htr & Hrest)].
  - now left.
  - right. exists path, data, before, (after ++ [EvResponse r]).
    split; [exact Hcur|]. split.
    + cbn. rewrite Htr. now rewrite <- !app_assoc.
    + rewrite assignments_app. cbn. rewrite app_nil_r. exact Hrest.
Qed.

Lemma handled_justified (E : Env) (file : File) (clock : Clock) (w w' : Server.W) :
  slot_justified E w ->
  handled E (storage_filename file clock) (stored E file clock w) w' ->
  slot_justified E w'.
Proof.
  intros Hinv Hh. apply handled_effect in Hh.
  destruct Hh as [(Hglobal & evs & Htr & _ & Hquiet)
                 | (data & before & Hglobal & Htr & Hsig & Hparse & Hstrip)].
  - cbn [stored global trace] in Hglobal, Htr.
    destruct Hinv as [Hnull | (path & d & b & a & Hcur & Htrw & Hs & Hp & Hr & Ha)].
    + left. unfold Server.currentFilePath in *. congruence.
    + right.
      exists path, d, b,
        (a ++ [EvWriteFile (upload_path E (storage_filename file clock))
                 (length (content file))] ++ evs).
      unfold Server.currentFilePath in *.
      split; [congruence|]. split; [|repeat (split; [assumption|])].
      * rewrite Htr, Htrw. now rewrite <- !app_assoc.
      * rewrite !assignments_app, Ha, Hquiet. reflexivity.
  - right. cbn [stored trace] in Htr.
    exists (upload_path E (storage_filename file clock)), data,
      ((trace w ++ [EvWriteFile (upload_path E (storage_filename file clock))
                      (length (content file))]) ++ before),
      [EvResponse (ResJson ("/uploads/" +:+ storage_filename file clock))].
    split; [exact Hglobal|]. split; [|repeat (split; [assumption|]); reflexivity].
    rewrite Htr. now rewrite <- !app_assoc.
Qed.

(** C9: [currentFilePath] starts as [null], and in every world the
    server reaches it is [null] or holds a path that was assigned right
    after the signature test, the parse and the tag removal succeeded on
    the file at that path. *)
Theorem currentFilePath_is_null_or_verified (E : Env) (w : Server.W) :
  Server.reachable E w -> slot_justified E w.
Proof.
  induction 1 as [disk | w part clock Hreach IH].
  - now left.
  - destruct (post_upload_cases E part clock w) as [[r ->] | (file & _ & _ & _ & _ & Hh)].
    + now apply emit_response_justified.
    + now apply (handled_justified E file clock w).
Qed.

Lemma currentFilePath_is_null_or_verified_witness :
  slot_justified sample_env first_upload.
Proof.
  apply (currentFilePath_is_null_or_verified sample_env first_upload).
  apply Server.reach_upload, Server.reach_init.
Defined.

(** ** The server that keeps [lastFile] *)

Lemma checkMagicNumber_alt_run (filePath : string) (callback : bool -> ServerAlt.JS unit)
    (w : ServerAlt.W) :
  ServerAlt.checkMagicNumber filePath callback w
  = match fs w !! filePath with
    | Some data =>
        if has_signature data
        then task (callback true) (emit (EvReadFile filePath (Some data)) w)
        else (emit (EvReadFile filePath (Some data)) w, inr tt)
    | None =>
        (emit (EvUncaught (ENOENT "open" filePath)) (emit (EvReadFile filePath None) w),
         inr tt)
    end.
Proof.
  unfold ServerAlt.checkMagicNumber, readFile.
  destruct (fs w !! filePath) as [data|]; [|reflexivity].
  unfold task, bind, ServerAlt.rethrow, toString_hex, ret.
  rewrite toString_hex_signature.
  destruct (has_signature data); [|reflexivity].
  destruct (callback true _) as [w' [e|[]]]; reflexivity.
Qed.

Lemma before_check_alt_responses (E : Env) (name : string) (w : ServerAlt.W) :
  responses (trace (before_check_alt E name w)) = responses (trace w).
Proof.
  unfold before_check_alt, ServerAlt.delete_previous, ServerAlt.assign_lastFile, bind.
  destruct (ServerAlt.lastFile w) as [|c previous].
  - cbn. rewrite responses_app. cbn. now rewrite app_nil_r.
  - unfold unlink_cb, task, ServerAlt.rethrow.
    destruct (fs w !! String c previous); cbn;
      rewrite !responses_app; cbn; now rewrite !app_nil_r.
Qed.

Lemma upload_handler_alt_run (E : Env) (file : File) (name : string) (w : ServerAlt.W) :
  ServerAlt.upload_handler E (request_of file name) w
  = ServerAlt.checkMagicNumber (upload_path E name)
      (ServerAlt.on_checked E (upload_path E name) name) (before_check_alt E name w).
Proof.
  unfold ServerAlt.upload_handler, request_of, req_file_filename. cbn [req_file filename].
  fold (upload_path E name). unfold before_check_alt, bind, ret.
  unfold ServerAlt.delete_previous, ServerAlt.assign_lastFile.
  destruct (ServerAlt.lastFile w) as [|c previous]; [reflexivity|].
  unfold unlink_cb, task, ServerAlt.rethrow.
  destruct (fs w !! String c previous); reflexivity.
Qed.

(** C10: [checkMagicNumber] uses its callback in one way only, by
    calling it with [true] when the file begins with 49 44 33; on any
    other file, and on a file that cannot be read, the callback is not
    called (an exception escapes in the latter case), and then the
    handler sends no response.  This holds in both servers. *)
Theorem checkMagicNumber_calls_back_on_signature_only :
  (forall (filePath : string) (callback : bool -> Server.JS unit) (w : Server.W),
      Server.checkMagicNumber filePath callback w
      = match fs w !! filePath with
        | Some data =>
            if has_signature data
            then task (callback true) (emit (EvReadFile filePath (Some data)) w)
            else (emit (EvReadFile filePath (Some data)) w, inr tt)
        | None =>
            (emit (EvUncaught (TypeError_undefined "toString"))
               (emit (EvReadFile filePath None) w),
             inr tt)
        end)
  /\ (forall (filePath : string) (callback : bool -> ServerAlt.JS unit) (w : ServerAlt.W),
        ServerAlt.checkMagicNumber filePath callback w
        = match fs w !! filePath with
          | Some data =>
              if has_signature data
              then task (callback true) (emit (EvReadFile filePath (Some data)) w)
              else (emit (EvReadFile filePath (Some data)) w, inr tt)
          | None =>
              (emit (EvUncaught (ENOENT "open" filePath))
                 (emit (EvReadFile filePath None) w),
               inr tt)
          end)
  /\ (forall (E : Env) (file : File) (name : string) (w : Server.W),
        match fs (before_check w) !! upload_path E name with
        | Some data =>
            if has_signature data then True
            else responses (trace (fst (Server.upload_handler E (request_of file name) w)))
                 = responses (trace w)
        | None =>
            responses (trace (fst (Server.upload_handler E (request_of file name) w)))
            = responses (trace w)
        end)
  /\ (forall (E : Env) (file : File) (name : string) (w : ServerAlt.W),
        match fs (before_check_alt E name w) !! upload_path E name with
        | Some data =>
            if has_signature data then True
            else responses (trace (fst (ServerAlt.upload_handler E (request_of file name) w)))
                 = responses (trace w)
        | None =>
            responses (trace (fst (ServerAlt.upload_handler E (request_of file name) w)))
            = responses (trace w)
        end).
Proof.
  split; [exact checkMagicNumber_run|]. split; [exact checkMagicNumber_alt_run|]. split.
  - intros E file name w.
    destruct (before_check_trace w) as (del & Htr & Hr & _).
    rewrite upload_handler_run, checkMagicNumber_run.
    destruct (fs (before_check w) !! upload_path E name) as [data|].
    + destruct (has_signature data); [exact I|].
      cbn. rewrite Htr, !responses_app, Hr. cbn. now rewrite !app_nil_r.
    + cbn. rewrite <- app_assoc, Htr, !responses_app, Hr. cbn. now rewrite !app_nil_r.
  - intros E file name w.
    rewrite upload_handler_alt_run, checkMagicNumber_alt_run.
    destruct (fs (before_check_alt E name w) !! upload_path E name) as [data|].
    + destruct (has_signature data); [exact I|].
      cbn. rewrite responses_app, before_check_alt_responses. cbn. now rewrite app_nil_r.
    + cbn. rewrite <- app_assoc, responses_app, before_check_alt_responses. cbn.
      now rewrite app_nil_r.
Qed.

(** What the server that keeps [lastFile] does in the cases of C2 and C5:
    it records the new path before any check, so an upload without the
    signature changes [lastFile]; and since its [parseMP3Metadata]
    swallows the failure, an upload that fails to parse is answered with
    the JSON of a success, for a file that has just been deleted. *)
Example lastFile_server_on_failures :
  ServerAlt.lastFile (served_alt not_mp3) = new_path
  /\ responses (trace (served_alt not_mp3)) = []
  /\ fs (served_alt not_mp3) !! new_path = Some not_mp3
  /\ responses (trace (served_alt truncated_mp3))
     = [ResJson "/uploads/mp3file-1700000000042-5"]
  /\ fs (served_alt truncated_mp3) !! new_path = None.
Proof. vm_compute. repeat split. Qed.

(** ** The name test of the browser *)

Lemma append_cons (c : ascii) (u v : string) : String c u +:+ v = String c (u +:+ v).
Proof. reflexivity. Qed.

Lemma append_empty_inv (u v : string) :
  u +:+ v = EmptyString -> u = EmptyString /\ v = EmptyString.
Proof.
  destruct u as [|c u]; [intros H; split; [reflexivity|exact H]|].
  rewrite append_cons. discriminate.
Qed.

Lemma nullable_matches (r : Client.regex) :
  Client.nullable r = true <-> Client.matches r EmptyString.
Proof.
  split.
  - induction r as [| |member|r IHr s IHs|r IHr s IHs|r IHr]; cbn; intros H;
      try discriminate.
    + constructor.
    + apply andb_true_iff in H as [Hr Hs].
      change EmptyString with (EmptyString +:+ EmptyString). constructor; auto.
    + apply orb_true_iff in H as [Hr|Hs]; [apply Client.matches_alt_l|apply Client.matches_alt_r]; auto.
    + constructor.
  - intros H. remember EmptyString as e eqn:He.
    induction H as [|member c Hc|r s u v Hu IHu Hv IHv|r s u Hu IHu|r s u Hu IHu
                   |r|r u v Hu IHu Hv IHv]; cbn; try reflexivity.
    + discriminate.
    + apply append_empty_inv in He as [-> ->]. now rewrite IHu, IHv.
    + now rewrite IHu.
    + rewrite IHu by assumption. apply orb_true_r.
Qed.

Lemma deriv_matches_fwd (c : ascii) (r : Client.regex) (s : string) :
  Client.matches (Client.deriv c r) s -> Client.matches r (String c s).
Proof.
  revert s.
  induction r as [| |member|r IHr t IHt|r IHr t IHt|r IHr]; cbn; intros s H.
  - inversion H.
  - inversion H.
  - destruct (member c) eqn:Hc; inversion H; subst. now constructor.
  - destruct (Client.nullable r) eqn:Hn.
    + inversion H as [| | |? ? ? H1|? ? ? H1| |]; subst.
      * inversion H1 as [| |? ? u v Hu Hv| | | |]; subst.
        rewrite <- append_cons. constructor; auto.
      * change (String c s) with (EmptyString +:+ String c s).
        constructor; [now apply nullable_matches|auto].
    + inversion H as [| |? ? u v Hu Hv| | | |]; subst.
      rewrite <- append_cons. constructor; auto.
  - inversion H; subst; [apply Client.matches_alt_l|apply Client.matches_alt_r]; auto.
  - inversion H as [| |? ? u v Hu Hv| | | |]; subst.
    rewrite <- append_cons. constructor; auto.
Qed.

Lemma deriv_matches_bwd (c : ascii) (r : Client.regex) (s : string) :
  Client.matches r (String c s) -> Client.matches (Client.deriv c r) s.
Proof.
  intros H. remember (String c s) as cs eqn:Hcs. revert s Hcs.
  induction H as [|member x Hx|r t u v Hu IHu Hv IHv|r t u Hu IHu|r t u Hu IHu
                 |r|r u v Hu IHu Hv IHv]; intros s Hcs; cbn.
  - discriminate.
  - injection Hcs as -> <-. rewrite Hx. constructor.
  - destruct u as [|x u].
    + change (v = String c s) in Hcs. subst v.
      apply nullable_matches in Hu. rewrite Hu. apply Client.matches_alt_r. auto.
    + rewrite append_cons in Hcs. injection Hcs as -> <-.
      destruct (Client.nullable r).
      * apply Client.matches_alt_l. constructor; auto.
      * constructor; auto.
  - apply Client.matches_alt_l. auto.
  - apply Client.matches_alt_r. auto.
  - discriminate.
  - destruct u as [|x u].
    + change (v = String c s) in Hcs. auto.
    + rewrite append_cons in Hcs. injection Hcs as -> <-. constructor; auto.
Qed.

(** The matcher decides the language of the expression. *)
Lemma test_matches (r : Client.regex) (s : string) :
  Client.test r s = true <-> Client.matches r s.
Proof.
  revert r. induction s as [|c s IH]; intros r; cbn.
  - apply nullable_matches.
  - rewrite IH. split; [apply deriv_matches_fwd|apply deriv_matches_bwd].
Qed.

Lemma class_matches (member : ascii -> bool) (s : string) :
  Client.matches (Client.Class member) s <->
  exists c, s = String c EmptyString /\ member c = true.
Proof.
  split.
  - intros H. inversion H; subst. eauto.
  - intros (c & -> & Hc). now constructor.
Qed.

Lemma lit_matches (l s : string) : Client.matches (Client.Lit l) s <-> s = l.
Proof.
  revert s. induction l as [|c l IH]; intros s; cbn.
  - split; [intros H; now inversion H|intros ->; constructor].
  - split.
    + intros H. inversion H as [| |? ? u v Hu Hv| | | |]; subst.
      apply class_matches in Hu as (x & -> & Hx). apply Ascii.eqb_eq in Hx as <-.
      apply IH in Hv as ->. reflexivity.
    + intros ->. change (String c l) with (String c EmptyString +:+ l).
      constructor; [|now apply IH].
      constructor. apply Ascii.eqb_refl.
Qed.

Lemma star_class_matches (member : ascii -> bool) (s : string) :
  Client.matches (Client.Star (Client.Class member)) s <->
  Client.all_chars member s = true.
Proof.
  split.
  - intros H. remember (Client.Star (Client.Class member)) as r eqn:Hr.
    induction H as [| | | | |r|r u v Hu _ Hv IHv]; try discriminate.
    + reflexivity.
    + injection Hr as ->. apply class_matches in Hu as (c & -> & Hc).
      rewrite append_cons. cbn. rewrite Hc. now apply IHv.
  - induction s as [|c s IH]; cbn; intros H.
    + constructor.
    + apply andb_true_iff in H as [Hc Hs].
      change (String c s) with (String c EmptyString +:+ s).
      constructor; [now constructor|auto].
Qed.

Lemma plus_class_matches (member : ascii -> bool) (s : string) :
  Client.matches (Client.Plus (Client.Class member)) s <->
  s <> EmptyString /\ Client.all_chars member s = true.
Proof.
  unfold Client.Plus. split.
  - intros H. inversion H as [| |? ? u v Hu Hv| | | |]; subst.
    apply class_matches in Hu as (c & -> & Hc). apply star_class_matches in Hv.
    rewrite append_cons. cbn. rewrite Hc. now split.
  - intros [Hne H]. destruct s as [|c s]; [congruence|].
    cbn in H. apply andb_true_iff in H as [Hc Hs].
    change (String c s) with (String c EmptyString +:+ s).
    constructor; [now constructor|now apply star_class_matches].
Qed.

(** The class of the expression holds the characters the specification
    lists. *)
Lemma name_class_allowed (c : ascii) : Client.name_class c = Client.allowed_char c.
Proof.
  destruct c as [b0 b1 b2 b3 b4 b5 b6 b7].
  destruct b0, b1, b2, b3, b4, b5, b6, b7; reflexivity.
Qed.

Lemma all_chars_ext (p q : ascii -> bool) (s : string) :
  (forall c, p c = q c) -> Client.all_chars p s = Client.all_chars q s.
Proof. intros H. induction s as [|c s IH]; cbn; [reflexivity|]. now rewrite H, IH. Qed.

(** [regexName] accepts the names the specification describes. *)
Lemma regexName_well_formed (s : string) :
  Client.test Client.regexName s = true <-> Client.well_formed_name s.
Proof.
  rewrite test_matches. unfold Client.regexName, Client.well_formed_name. split.
  - intros H. inversion H as [| |? ? u v Hu Hv| | | |]; subst.
    apply plus_class_matches in Hu as [Hne Hall].
    apply (lit_matches ".mp3") in Hv as ->.
    exists u. rewrite <- (all_chars_ext _ _ u name_class_allowed). auto.
  - intros (stem & -> & Hne & Hall). constructor.
    + apply plus_class_matches. now rewrite (all_chars_ext _ _ stem name_class_allowed).
    + now apply lit_matches.
Qed.

(** ** The claims about names and sizes *)

(** C4 (as amended): a name that is not of the restricted shape, or is
    longer than 70 characters, makes the browser's [validateFile] return
    [false]; the server does not look at the name: the verdict of
    [fileFilter] is the same whatever name the client gave the file. *)
Theorem filename_is_checked_in_the_browser_only (f : Client.BrowserFile) (file : File) :
  ~ Client.well_formed_name (Client.name f) \/ (70 < String.length (Client.name f))%nat ->
  snd (Client.validateFile f) = false
  /\ fileFilter (rename file (Client.name f)) = fileFilter file.
Proof.
  intros H. split; [|reflexivity].
  unfold Client.validateFile.
  destruct (negb (String.eqb (Client.type f) "audio/mpeg")); [reflexivity|].
  destruct (Client.size f >=? 7000000); [reflexivity|].
  destruct (Client.test Client.regexName (Client.name f)) eqn:Htest; [|reflexivity].
  apply regexName_well_formed in Htest.
  destruct H as [H|H]; [contradiction|].
  cbn [negb orb].
  destruct (Z.gtb_spec (Z.of_nat (String.length (Client.name f))) 70); [reflexivity|lia].
Qed.

Lemma filename_is_checked_in_the_browser_only_witness :
  snd (Client.validateFile traversal_browser_file) = false
  /\ fileFilter (rename traversal_file "../../etc/passwd.mp3") = fileFilter traversal_file.
Proof.
  apply (filename_is_checked_in_the_browser_only traversal_browser_file traversal_file).
  left. intros H. apply regexName_well_formed in H. vm_compute in H. discriminate.
Defined.

(** C4 as stated fails: the server takes a file whose name is outside
    the pattern, stores it and publishes it, wherever multer draws the
    line of its size limit. *)
Lemma server_accepts_any_filename :
  originalname traversal_file = "../../etc/passwd.mp3"
  /\ Client.test Client.regexName (originalname traversal_file) = false
  /\ fileFilter traversal_file = inr true
  /\ trace (traversal_upload sample_env)
     = EvWriteFile old_path 7 :: verified_assignment old_path tagged_mp3
       ++ [EvResponse (ResJson "/uploads/mp3file-1700000000000-123456789")]
  /\ trace (traversal_upload sample_env_strict) = trace (traversal_upload sample_env).
Proof. vm_compute. repeat split. Qed.

(** The handler does not look at the file it is given beyond the name
    the storage chose. *)
Lemma post_upload_rename (E : Env) (file : File) (client_name : string) (clock : Clock)
    (w : Server.W) :
  Server.post_upload E (Some (rename file client_name)) clock w
  = Server.post_upload E (Some file) clock w.
Proof.
  unfold Server.post_upload, upload_single, fileFilter, rename.
  cbn [fieldname mimetype content].
  destruct (negb (String.eqb (fieldname file) "mp3file")); [reflexivity|].
  destruct (String.eqb (mimetype file) "audio/mpeg"); [|reflexivity].
  destruct (fileSize_exceeded E _ _); [reflexivity|].
  unfold bind, express_run, try_catch.
  destruct (disk_write _ _ w) as [w1 [e|[]]]; [reflexivity|].
  change (storage_filename (MkFile (fieldname file) client_name (mimetype file)
                              (content file)) clock)
    with (storage_filename file clock).
  change (MkRequest (Some (MkStoredFile ?f ?n))) with (request_of f n).
  now rewrite !upload_handler_run.
Qed.

(** C8: the stored name does not depend on the name the client gave:
    two files that differ in it only get the same stored name at the same
    clock, and the server deals with them in the same way, down to the
    paths it writes and answers with; under the field the route accepts,
    the stored name is ["mp3file-"], the time, a hyphen and the random
    integer. *)
Theorem stored_name_ignores_client_name :
  (forall (file : File) (name1 name2 : string) (clock : Clock),
      storage_filename (rename file name1) clock
      = storage_filename (rename file name2) clock)
  /\ (forall (E : Env) (file : File) (name1 name2 : string) (clock : Clock)
             (w : Server.W),
        Server.post_upload E (Some (rename file name1)) clock w
        = Server.post_upload E (Some (rename file name2)) clock w)
  /\ (forall (client_name mime : string) (data : Buffer) (clock : Clock),
        storage_filename (MkFile "mp3file" client_name mime data) clock
        = "mp3file-" +:+ Number_toString (Date_now clock) +:+ "-"
          +:+ Number_toString (random_1E9 clock)).
Proof.
  split; [reflexivity|]. split; [|reflexivity].
  intros E file name1 name2 clock w. now rewrite !post_upload_rename.
Qed.

(** ** The size limit

    The browser refuses a file of 7,000,000 bytes or more.  On the
    server the limit is multer's to apply: the upload is refused exactly
    when the library finds the limit passed. *)
Lemma validateFile_size (f : Client.BrowserFile) :
  7000000 <= Client.size f -> snd (Client.validateFile f) = false.
Proof.
  intros H. unfold Client.validateFile.
  destruct (negb (String.eqb (Client.type f) "audio/mpeg")); [reflexivity|].
  destruct (Z.geb_spec (Client.size f) 7000000); [reflexivity|lia].
Qed.

Lemma post_upload_size (E : Env) (client_name : string) (data : Buffer) (clock : Clock)
    (w : Server.W) :
  fileSize_exceeded E (length data) 7000000 = true ->
  fst (Server.post_upload E (Some (MkFile "mp3file" client_name "audio/mpeg" data)) clock w)
  = emit (EvResponse (ResStatusSend 500 "File too large")) w.
Proof.
  intros H. unfold Server.post_upload, upload_single. cbn.
  unfold limits_fileSize. now rewrite H.
Qed.

(** * More of the server that keeps [currentFilePath] *)

(** X1: the comparison of [data.toString('hex', 0, 3)] with ["494433"]
    succeeds exactly on the buffers that begin with the three bytes
    49 44 33; a buffer of fewer than three bytes never passes. *)
Theorem signature_test_needs_three_bytes (data : Buffer) :
  String.eqb (Buffer_toString_hex data 0 3) "494433" = true
  <-> exists rest, data = (x49 :: x44 :: x33 :: rest)%byte.
Proof.
  rewrite toString_hex_signature, has_signature_take. unfold ID3_signature.
  split.
  - destruct data as [|b0 [|b1 [|b2 rest]]]; cbn [take firstn]; try discriminate.
    intros [= -> -> ->]. now exists rest.
  - intros [rest ->]. reflexivity.
Qed.

(** X2: [deleteFile] never fails towards its caller: its promise is
    fulfilled whether or not the file was there, the file is absent
    afterwards, and a second deletion of the same path changes nothing on
    the disk and only logs the error of [unlink]. *)
Theorem deleteFile_swallows_errors (path : string) (w : Server.W) :
  snd (Server.deleteFile path w) = inr (inr tt)
  /\ fs (fst (Server.deleteFile path w)) !! path = None
  /\ global (fst (Server.deleteFile path w)) = global w
  /\ fs (fst (Server.deleteFile path (fst (Server.deleteFile path w))))
     = fs (fst (Server.deleteFile path w))
  /\ trace (fst (Server.deleteFile path (fst (Server.deleteFile path w))))
     = trace (fst (Server.deleteFile path w))
       ++ [EvUnlink path false;
           EvConsoleError ("error: " +:+ exn_message (ENOENT "unlink" path))].
Proof.
  rewrite !deleteFile_run. cbn [fst snd fs global trace].
  split; [reflexivity|]. split; [apply lookup_delete_eq|]. split; [reflexivity|].
  split.
  - apply delete_id, lookup_delete_eq.
  - unfold deletion_events. now rewrite lookup_delete_eq.
Qed.

Lemma handled_frame (E : Env) (name : string) (w w' : Server.W) (other : string) :
  handled E name w w' ->
  Server.truthy (Server.currentFilePath w) <> Some other ->
  other <> upload_path E name ->
  fs w' !! other = fs w !! other.
Proof.
  intros H Hprev Hpath.
  assert (fs (before_check w) !! other = fs w !! other) as Hb.
  { unfold before_check. destruct (Server.truthy _) as [previous|]; [|reflexivity].
    cbn. apply lookup_delete_ne. congruence. }
  destruct H; cbn [fs]; rewrite <- Hb; try reflexivity.
  - now apply lookup_delete_ne.
  - now apply lookup_insert_ne.
Qed.

(** X3: the handler touches two files at most, the one [currentFilePath]
    names and the one of the request; every other file of the disk is as
    it was. *)
Theorem upload_handler_keeps_other_files (E : Env) (file : File) (name : string)
    (w : Server.W) (other : string) :
  Server.truthy (Server.currentFilePath w) <> Some other ->
  other <> upload_path E name ->
  fs (fst (Server.upload_handler E (request_of file name) w)) !! other = fs w !! other.
Proof.
  intros Hprev Hpath.
  destruct (upload_handler_handled E file name w) as [_ H].
  now apply (handled_frame E name w).
Qed.

Lemma upload_handler_keeps_other_files_witness :
  fs (fst (Server.upload_handler sample_env (request_of (sample_file tagged_mp3) new_name)
             (serving_beside tagged_mp3))) !! bystander_path
  = fs (serving_beside tagged_mp3) !! bystander_path.
Proof.
  apply (upload_handler_keeps_other_files sample_env (sample_file tagged_mp3) new_name
           (serving_beside tagged_mp3) bystander_path); vm_compute; discriminate.
Defined.

Lemma handled_answers (E : Env) (name : string) (w w' : Server.W) :
  handled E name w w' ->
  (responses (trace w') = responses (trace w)
   /\ global w' = global w
   /\ (forall previous,
         Server.truthy (Server.currentFilePath w) = Some previous ->
         fs w' !! previous = None))
  \/ (responses (trace w') = responses (trace w) ++ [ResJson ("/uploads/" +:+ name)]
      /\ global w' = Some (upload_path E name)
      /\ is_Some (fs w' !! upload_path E name)
      /\ (forall previous,
            Server.truthy (Server.currentFilePath w) = Some previous ->
            fs w' !! previous = None)).
Proof.
  destruct (before_check_trace w) as (del & Htr & Hr & _).
  intros [Hnone | data Hdata Hsig | data Hdata Hsig Hs | data data' Hdata Hsig Hp Hs];
    cbn [fs global trace]; rewrite Htr, !responses_app, Hr; cbn [responses app];
    rewrite ?app_nil_r.
  - left. split; [reflexivity|]. split; [reflexivity|].
    intros previous Hprev. now apply before_check_previous.
  - left. split; [reflexivity|]. split; [reflexivity|].
    intros previous Hprev. now apply before_check_previous.
  - left. destruct (failure_events_quiet E (upload_path E name) data) as (-> & _).
    rewrite app_nil_r. split; [reflexivity|]. split; [reflexivity|].
    intros previous Hprev. pose proof (before_check_previous w previous Hprev) as Hgone.
    destruct (decide (upload_path E name = previous)) as [<-|Hne].
    + apply lookup_delete_eq.
    + now rewrite lookup_delete_ne.
  - right. split; [reflexivity|]. split; [reflexivity|].
    split; [rewrite lookup_insert_eq; eauto|].
    intros previous Hprev. pose proof (before_check_previous w previous Hprev) as Hgone.
    destruct (decide (upload_path E name = previous)) as [Heq|Hne].
    + rewrite Heq in Hdata. congruence.
    + now rewrite lookup_insert_ne.
Qed.

(** X4: the handler sends at most one response, and the only response
    it ever sends is the JSON of a success: no error status comes from
    it, whatever the file. *)
Theorem upload_handler_answers_success_or_nothing (E : Env) (file : File) (name : string)
    (w : Server.W) :
  responses (trace (fst (Server.upload_handler E (request_of file name) w)))
  = responses (trace w)
  \/ responses (trace (fst (Server.upload_handler E (request_of file name) w)))
     = responses (trace w) ++ [ResJson ("/uploads/" +:+ name)].
Proof.
  destruct (upload_handler_handled E file name w) as [_ H].
  apply handled_answers in H as [(Hr & _) | (Hr & _)]; auto.
Qed.

(** X5: an upload that is not answered with a success still costs the
    published file: [currentFilePath] goes on naming it, and it is no
    longer on the disk. *)
Theorem failed_upload_leaves_dangling_path (E : Env) (file : File) (name : string)
    (w : Server.W) (previous : string) :
  Server.truthy (Server.currentFilePath w) = Some previous ->
  responses (trace (fst (Server.upload_handler E (request_of file name) w)))
  = responses (trace w) ->
  Server.currentFilePath (fst (Server.upload_handler E (request_of file name) w))
  = Some previous
  /\ fs (fst (Server.upload_handler E (request_of file name) w)) !! previous = None.
Proof.
  intros Hprev Hquiet.
  destruct (upload_handler_handled E file name w) as [_ H].
  assert (Server.currentFilePath w = Some previous) as Hcur.
  { unfold Server.truthy in Hprev. destruct (Server.currentFilePath w) as [[|c s]|];
      congruence. }
  apply handled_answers in H as [(_ & Hg & Hgone) | (Hr & _)].
  - unfold Server.currentFilePath in *. split; [congruence|auto].
  - rewrite Hr in Hquiet. symmetry in Hquiet. now apply app_one_neq in Hquiet.
Qed.

Lemma failed_upload_leaves_dangling_path_witness :
  Server.currentFilePath (served truncated_mp3) = Some old_path
  /\ fs (served truncated_mp3) !! old_path = None.
Proof.
  apply (failed_upload_leaves_dangling_path sample_env (sample_file truncated_mp3)
           new_name (serving truncated_mp3) old_path); vm_compute; reflexivity.
Defined.

(** X6: when the storage gives an upload the name of the file
    [currentFilePath] holds, the handler deletes the file it was just
    given: the read fails, a [TypeError] escapes, no response is sent and
    [currentFilePath] names a file that is gone. *)
Theorem colliding_name_loses_the_upload (E : Env) (file : File) (name : string)
    (w : Server.W) :
  Server.truthy (Server.currentFilePath w) = Some (upload_path E name) ->
  uncaught (trace (fst (Server.upload_handler E (request_of file name) w)))
  = uncaught (trace w) ++ [TypeError_undefined "toString"]
  /\ responses (trace (fst (Server.upload_handler E (request_of file name) w)))
     = responses (trace w)
  /\ fs (fst (Server.upload_handler E (request_of file name) w)) !! upload_path E name
     = None.
Proof.
  intros Hprev.
  pose proof (before_check_previous w _ Hprev) as Hgone.
  destruct (upload_handler_handled E file name w) as [_ H].
  destruct (before_check_trace w) as (del & Htr & Hr & Hu & _).
  destruct H as [_ | d Hd _ | d Hd _ _ | d d' Hd _ _ _]; try congruence.
  cbn [fs trace]. rewrite Htr, !responses_app, !uncaught_app, Hr, Hu. cbn.
  rewrite !app_nil_r. auto.
Qed.

Lemma colliding_name_loses_the_upload_witness :
  uncaught (trace colliding_upload) = [TypeError_undefined "toString"]
  /\ responses (trace colliding_upload)
     = [ResJson "/uploads/mp3file-1700000000000-123456789"]
  /\ fs colliding_upload !! old_path = None.
Proof.
  apply (colliding_name_loses_the_upload sample_env (sample_file tagged_mp3)
           (storage_filename (sample_file tagged_mp3) sample_clock)
           (stored sample_env (sample_file tagged_mp3) sample_clock first_upload)).
  reflexivity.
Defined.

(** A request ends in multer or in Express with one response of status
    500 and nothing else, or it reaches the handler with the file
    stored. *)
Lemma post_upload_refused_or_handled (E : Env) (part : option File) (clock : Clock)
    (w : Server.W) :
  ((part = None
    \/ exists file,
         part = Some file
         /\ (fieldname file <> "mp3file" \/ mimetype file <> "audio/mpeg"
             \/ fileSize_exceeded E (length (content file)) limits_fileSize = true))
   /\ exists msg,
        fst (Server.post_upload E part clock w)
        = emit (EvResponse (ResStatusSend 500 msg)) w)
  \/ (exists file,
        part = Some file
        /\ fieldname file = "mp3file"
        /\ mimetype file = "audio/mpeg"
        /\ fileSize_exceeded E (length (content file)) limits_fileSize = false
        /\ handled E (storage_filename file clock) (stored E file clock w)
             (fst (Server.post_upload E part clock w))).
Proof.
  unfold Server.post_upload, upload_single.
  destruct part as [file|].
  - destruct (String.eqb_spec (fieldname file) "mp3file") as [Hfield|Hfield]; cbn [negb].
    + unfold fileFilter.
      destruct (String.eqb_spec (mimetype file) "audio/mpeg") as [Hmime|Hmime].
      * destruct (fileSize_exceeded E _ _) eqn:Hsize.
        -- left. split; [right; exists file; auto|]. eexists. reflexivity.
        -- right. exists file. do 4 (split; [reflexivity || assumption|]).
           unfold bind, disk_write, express_run, try_catch.
           rewrite stored_where_read.
           change (emit _ (set_fs _ w)) with (stored E file clock w).
           change (MkRequest _) with (request_of file (storage_filename file clock)).
           destruct (upload_handler_handled E file (storage_filename file clock)
                       (stored E file clock w)) as [Hret Hh].
           destruct (Server.upload_handler E _ _) as [w' r]. cbn in Hret. subst r.
           exact Hh.
      * left. split; [right; exists file; auto|]. eexists. reflexivity.
    + left. split; [right; exists file; auto|]. eexists. reflexivity.
  - left. split; [now left|]. eexists. reflexivity.
Qed.

(** X7: a request that carries no file, names another field, declares
    another type than audio/mpeg or passes multer's size limit never
    reaches the handler: the disk and [currentFilePath] are as they were
    (the published file is not deleted) and the request gets one
    response, of status 500. *)
Theorem refused_upload_changes_nothing (E : Env) (part : option File) (clock : Clock)
    (w : Server.W) :
  part = None
  \/ (exists file,
        part = Some file
        /\ (fieldname file <> "mp3file" \/ mimetype file <> "audio/mpeg"
            \/ fileSize_exceeded E (length (content file)) limits_fileSize = true)) ->
  fs (fst (Server.post_upload E part clock w)) = fs w
  /\ Server.currentFilePath (fst (Server.post_upload E part clock w))
     = Server.currentFilePath w
  /\ exists msg,
       trace (fst (Server.post_upload E part clock w))
       = trace w ++ [EvResponse (ResStatusSend 500 msg)].
Proof.
  intros Hrefused.
  destruct (post_upload_refused_or_handled E part clock w)
    as [(_ & msg & ->) | (file & -> & Hf & Hm & Hs & _)].
  - cbn. eauto.
  - exfalso. destruct Hrefused as [|(file' & [= <-] & [?|[?|?]])];
      [discriminate|congruence..].
Qed.

Lemma refused_upload_changes_nothing_witness :
  fs (fst (Server.post_upload sample_env (Some wrong_type_file) second_clock first_upload))
  = fs first_upload
  /\ Server.currentFilePath
       (fst (Server.post_upload sample_env (Some wrong_type_file) second_clock
               first_upload))
     = Server.currentFilePath first_upload
  /\ exists msg,
       trace (fst (Server.post_upload sample_env (Some wrong_type_file) second_clock
                     first_upload))
       = trace first_upload ++ [EvResponse (ResStatusSend 500 msg)].
Proof.
  apply (refused_upload_changes_nothing sample_env (Some wrong_type_file) second_clock
           first_upload).
  right. exists wrong_type_file. split; [reflexivity|]. right. left.
  vm_compute. discriminate.
Defined.

Lemma upload_path_public (E : Env) (name : string) :
  upload_path E name = cwd E +:+ "/uploads/" +:+ name.
Proof. reflexivity. Qed.

Lemma upload_path_truthy (E : Env) (name : string) :
  Server.truthy (Some (upload_path E name)) = Some (upload_path E name).
Proof.
  rewrite upload_path_public. destruct (cwd E) as [|c s]; reflexivity.
Qed.

(** What a request that is answered with a success leaves. *)
Lemma post_upload_success (E : Env) (part : option File) (clock : Clock) (w : Server.W)
    (answer : string) :
  responses (trace (fst (Server.post_upload E part clock w)))
  = responses (trace w) ++ [ResJson answer] ->
  exists file,
    part = Some file
    /\ answer = "/uploads/" +:+ storage_filename file clock
    /\ global (fst (Server.post_upload E part clock w))
       = Some (upload_path E (storage_filename file clock))
    /\ is_Some (fs (fst (Server.post_upload E part clock w))
                !! upload_path E (storage_filename file clock))
    /\ (forall previous,
          Server.truthy (Server.currentFilePath w) = Some previous ->
          fs (fst (Server.post_upload E part clock w)) !! previous = None).
Proof.
  intros Hans.
  destruct (post_upload_refused_or_handled E part clock w)
    as [(_ & msg & Hw) | (file & -> & _ & _ & _ & H)].
  - rewrite Hw in Hans. cbn in Hans. rewrite responses_app in Hans.
    apply app_inv_head in Hans. discriminate.
  - exists file. split; [reflexivity|].
    apply handled_answers in H as [(Hr & _) | (Hr & Hg & Hfile & Hgone)].
    + cbn [stored trace] in Hr. rewrite responses_app, app_nil_r in Hr.
      rewrite Hr in Hans. now apply app_one_neq in Hans.
    + cbn [stored trace] in Hr. rewrite responses_app, app_nil_r in Hr.
      rewrite Hr in Hans. apply app_inv_head in Hans. injection Hans as <-.
      auto.
Qed.

(** X8: when two requests in a row are both answered with a success,
    the two public paths differ, [currentFilePath] holds the second
    file, which is on the disk, and the first file is gone: one
    published file is left. *)
Theorem consecutive_successes_keep_the_last (E : Env) (part1 part2 : option File)
    (clock1 clock2 : Clock) (w : Server.W) (answer1 answer2 : string) :
  responses (trace (fst (Server.post_upload E part1 clock1 w)))
  = responses (trace w) ++ [ResJson answer1] ->
  responses (trace (fst (Server.post_upload E part2 clock2
                           (fst (Server.post_upload E part1 clock1 w)))))
  = responses (trace (fst (Server.post_upload E part1 clock1 w))) ++ [ResJson answer2] ->
  answer1 <> answer2
  /\ Server.currentFilePath
       (fst (Server.post_upload E part2 clock2 (fst (Server.post_upload E part1 clock1 w))))
     = Some (cwd E +:+ answer2)
  /\ is_Some (fs (fst (Server.post_upload E part2 clock2
                         (fst (Server.post_upload E part1 clock1 w))))
              !! (cwd E +:+ answer2))
  /\ fs (fst (Server.post_upload E part2 clock2 (fst (Server.post_upload E part1 clock1 w))))
     !! (cwd E +:+ answer1) = None.
Proof.
  intros H1 H2.
  apply post_upload_success in H1 as (file1 & _ & -> & Hg1 & _ & _).
  apply post_upload_success in H2 as (file2 & _ & -> & Hg2 & Hfile2 & Hgone).
  rewrite <- !upload_path_public.
  specialize (Hgone (upload_path E (storage_filename file1 clock1))).
  unfold Server.currentFilePath in Hgone. rewrite Hg1, upload_path_truthy in Hgone.
  specialize (Hgone eq_refl).
  repeat split; try assumption.
  intros Heq. apply (f_equal (String.append (cwd E))) in Heq.
  rewrite <- !upload_path_public in Heq. rewrite Heq in Hgone.
  rewrite Hgone in Hfile2. now destruct Hfile2.
Qed.

Lemma consecutive_successes_keep_the_last_witness :
  "/uploads/mp3file-1700000000000-123456789" <> "/uploads/mp3file-1700000000042-5"
  /\ Server.currentFilePath second_upload = Some new_path
  /\ is_Some (fs second_upload !! new_path)
  /\ fs second_upload !! old_path = None.
Proof.
  apply (consecutive_successes_keep_the_last sample_env
           (Some (sample_file tagged_mp3)) (Some (sample_file tagged_mp3))
           sample_clock second_clock (Server.init ∅)); vm_compute; reflexivity.
Defined.

(** ** The names the storage gives *)

Lemma string_of_uint_digits (d : Decimal.uint) :
  Client.all_chars Client.is_digit (NilEmpty.string_of_uint d) = true.
Proof. induction d; cbn; auto. Qed.

Lemma string_of_uint_inj (d d' : Decimal.uint) :
  NilEmpty.string_of_uint d = NilEmpty.string_of_uint d' -> d = d'.
Proof.
  intros H. apply (f_equal NilEmpty.uint_of_string) in H.
  rewrite !NilEmpty.usu in H. congruence.
Qed.

Lemma Number_toString_digits (n : Z) :
  0 <= n -> Client.all_chars Client.is_digit (Number_toString n) = true.
Proof.
  destruct n as [|p|p]; intros H; [reflexivity| |lia].
  apply string_of_uint_digits.
Qed.

Lemma digits_head (d : Decimal.uint) (rest : string) :
  NilEmpty.string_of_uint d <> String "-" rest.
Proof.
  intros H. pose proof (string_of_uint_digits d) as Hd. rewrite H in Hd.
  cbn in Hd. discriminate.
Qed.

(** Different integers are written differently. *)
Lemma Number_toString_inj (n m : Z) : Number_toString n = Number_toString m -> n = m.
Proof.
  destruct n as [|p|p], m as [|q|q]; cbn [Number_toString]; intros H;
    try reflexivity.
  - change "0" with (NilEmpty.string_of_uint (Decimal.D0 Decimal.Nil)) in H.
    apply string_of_uint_inj in H. symmetry in H.
    now apply Unsigned.to_uint_nonzero in H.
  - discriminate.
  - change "0" with (NilEmpty.string_of_uint (Decimal.D0 Decimal.Nil)) in H.
    apply string_of_uint_inj in H. now apply Unsigned.to_uint_nonzero in H.
  - apply string_of_uint_inj, Unsigned.to_uint_inj in H. now subst.
  - now apply digits_head in H.
  - discriminate.
  - symmetry in H. now apply digits_head in H.
  - injection H as H. apply string_of_uint_inj, Unsigned.to_uint_inj in H. now subst.
Qed.

(** Two strings of digits followed by a hyphen and more are equal only
    piece by piece. *)
Lemma digits_hyphen_inj (a a' b b' : string) :
  Client.all_chars Client.is_digit a = true ->
  Client.all_chars Client.is_digit a' = true ->
  a +:+ String "-" b = a' +:+ String "-" b' ->
  a = a' /\ b = b'.
Proof.
  revert a'. induction a as [|c a IH]; intros [|c' a'] Ha Ha' H.
  - injection H as ->. auto.
  - rewrite append_cons in H. injection H as <- _. discriminate.
  - rewrite append_cons in H. injection H as -> _. discriminate.
  - rewrite !append_cons in H. injection H as -> H.
    cbn in Ha, Ha'. apply andb_true_iff in Ha as [_ Ha], Ha' as [_ Ha'].
    destruct (IH a' Ha Ha' H) as [-> ->]. auto.
Qed.

(** X9: the stored name tells the two readings it was built from: two
    uploads under the same field get the same name only if both
    [Date.now()] and the random integer were the same. *)
Theorem stored_names_collide_on_equal_readings_only (file1 file2 : File)
    (clock1 clock2 : Clock) :
  fieldname file1 = fieldname file2 ->
  0 <= Date_now clock1 ->
  0 <= Date_now clock2 ->
  storage_filename file1 clock1 = storage_filename file2 clock2 ->
  clock1 = clock2.
Proof.
  intros Hfield H1 H2 Hname. unfold storage_filename in Hname.
  rewrite Hfield in Hname.
  apply String.app_inj in Hname. injection Hname as Hname.
  apply digits_hyphen_inj in Hname as [Hnow Hrnd];
    [|now apply Number_toString_digits..].
  apply Number_toString_inj in Hnow, Hrnd.
  destruct clock1, clock2. cbn in *. congruence.
Qed.

Lemma stored_names_collide_on_equal_readings_only_witness : sample_clock = sample_clock.
Proof.
  apply (stored_names_collide_on_equal_readings_only (sample_file tagged_mp3)
           (sample_file not_mp3) sample_clock sample_clock);
    [reflexivity|vm_compute; discriminate|vm_compute; discriminate|reflexivity].
Defined.

Lemma all_chars_app (p : ascii -> bool) (a b : string) :
  Client.all_chars p (a +:+ b) = Client.all_chars p a && Client.all_chars p b.
Proof.
  induction a as [|c a IH]; [reflexivity|].
  rewrite append_cons. cbn. now rewrite IH, andb_assoc.
Qed.

Lemma all_chars_weaken (p q : ascii -> bool) (s : string) :
  (forall c, p c = true -> q c = true) ->
  Client.all_chars p s = true -> Client.all_chars q s = true.
Proof.
  intros Hpq. induction s as [|c s IH]; cbn; [reflexivity|].
  intros H. apply andb_true_iff in H as [Hc Hs]. now rewrite (Hpq c Hc), IH.
Qed.

Lemma Number_toString_plain (n : Z) :
  Client.all_chars (fun c => Client.is_digit c || Ascii.eqb c "-") (Number_toString n)
  = true.
Proof.
  assert (forall d, Client.all_chars (fun c => Client.is_digit c || Ascii.eqb c "-")
                      (NilEmpty.string_of_uint d) = true) as Hd.
  { intros d. apply (all_chars_weaken Client.is_digit); [|apply string_of_uint_digits].
    intros c ->. reflexivity. }
  destruct n as [|p|p]; cbn [Number_toString]; [reflexivity|apply Hd|].
  rewrite append_cons. cbn. apply Hd.
Qed.

Lemma storage_filename_plain (file : File) (clock : Clock) :
  fieldname file = "mp3file" ->
  Client.all_chars
    (fun c => Client.is_letter c || Client.is_digit c || Ascii.eqb c "-")
    (storage_filename file clock) = true.
Proof.
  intros Hfield.
  assert (forall c, Client.is_digit c || Ascii.eqb c "-" = true ->
                    Client.is_letter c || Client.is_digit c || Ascii.eqb c "-" = true)
    as Hweak.
  { intros c H. rewrite <- orb_assoc, H. apply orb_true_r. }
  unfold storage_filename. rewrite Hfield, !all_chars_app.
  rewrite (all_chars_weaken _ _ _ Hweak (Number_toString_plain (Date_now clock))).
  rewrite (all_chars_weaken _ _ _ Hweak (Number_toString_plain (random_1E9 clock))).
  reflexivity.
Qed.

(** X10: under the field the route accepts, a stored name is made of
    letters, digits and hyphens only, whatever the client called the file
    and whatever the readings: it holds no slash or dot, so the file is
    written in the uploads directory itself. *)
Theorem stored_name_is_plain (client_name mime : string) (data : Buffer) (clock : Clock) :
  Client.all_chars
    (fun c => Client.is_letter c || Client.is_digit c || Ascii.eqb c "-")
    (storage_filename (MkFile "mp3file" client_name mime data) clock) = true
  /\ Client.all_chars
       (fun c => negb (Ascii.eqb c "/") && negb (Ascii.eqb c "."))
       (storage_filename (MkFile "mp3file" client_name mime data) clock) = true.
Proof.
  pose proof (storage_filename_plain (MkFile "mp3file" client_name mime data) clock
                eq_refl) as Hplain.
  split; [exact Hplain|].
  revert Hplain. apply all_chars_weaken.
  intros [b0 b1 b2 b3 b4 b5 b6 b7].
  destruct b0, b1, b2, b3, b4, b5, b6, b7; vm_compute; congruence.
Qed.

(** * More of the server that keeps [lastFile] *)

Lemma before_check_alt_world (E : Env) (name : string) (w : ServerAlt.W) :
  before_check_alt E name w
  = match ServerAlt.lastFile w with
    | EmptyString =>
        MkWorld (fs w) (upload_path E name) (trace w ++ [EvAssign (upload_path E name)])
    | previous =>
        match fs w !! previous with
        | Some _ =>
            MkWorld (delete previous (fs w)) (upload_path E name)
              (trace w ++ [EvUnlink previous true; EvAssign (upload_path E name)])
        | None =>
            MkWorld (fs w) (upload_path E name)
              (trace w ++ [EvUnlink previous false;
                           EvUncaught (ENOENT "unlink" previous);
                           EvAssign (upload_path E name)])
        end
    end.
Proof.
  unfold before_check_alt, ServerAlt.delete_previous, ServerAlt.assign_lastFile, bind.
  destruct (ServerAlt.lastFile w) as [|c previous]; [reflexivity|].
  unfold unlink_cb, task, ServerAlt.rethrow.
  destruct (fs w !! String c previous); js_done.
Qed.

Lemma before_check_alt_global (E : Env) (name : string) (w : ServerAlt.W) :
  global (before_check_alt E name w) = upload_path E name.
Proof.
  rewrite before_check_alt_world.
  destruct (ServerAlt.lastFile w) as [|c previous]; [reflexivity|].
  cbv beta iota zeta. now destruct (fs w !! String c previous).
Qed.

(** [parseMP3Metadata] of this server on a file that is there: it
    always fulfils its promise. *)
Lemma parseMP3Metadata_alt_run (E : Env) (filePath : string) (data : Buffer)
    (w : ServerAlt.W) :
  fs w !! filePath = Some data ->
  ServerAlt.parseMP3Metadata E filePath w
  = (match sanitized E data with
     | Some data' =>
         MkWorld (<[filePath := data']> (fs w)) (global w)
           (trace w ++ [EvParseFile filePath true; EvRemoveTags filePath true])
     | None =>
         MkWorld (delete filePath (fs w)) (global w)
           (trace w
            ++ (if mm_parseFile E data
                then [EvParseFile filePath true; EvRemoveTags filePath false]
                else [EvParseFile filePath false])
            ++ [EvConsoleError "Error while parsing the file."; EvUnlink filePath true])
     end, inr (inr tt)).
Proof.
  intros Hdata. unfold sanitized.
  unfold ServerAlt.parseMP3Metadata, async, try_catch, bind at 1, mm_parseFile_await.
  rewrite Hdata.
  destruct (mm_parseFile E data).
  - unfold NodeID3_removeTags_sync. cbn [emit fs]. rewrite Hdata.
    destruct (NodeID3_removeTags E data) as [data'|].
    + js_done.
    + unfold bind, console_error, tell, unlink_cb, task, ServerAlt.rethrow.
      cbn [emit fs]. rewrite Hdata. js_done.
  - unfold bind, console_error, tell, unlink_cb, task, ServerAlt.rethrow.
    cbn [emit fs]. rewrite Hdata. js_done.
Qed.

(** The world the handler of this server leaves, case by case. *)
Lemma upload_handler_alt_world (E : Env) (file : File) (name : string) (w : ServerAlt.W) :
  fst (ServerAlt.upload_handler E (request_of file name) w)
  = match fs (before_check_alt E name w) !! upload_path E name with
    | None =>
        emit (EvUncaught (ENOENT "open" (upload_path E name)))
          (emit (EvReadFile (upload_path E name) None) (before_check_alt E name w))
    | Some data =>
        if has_signature data
        then
          emit (EvResponse (ResJson ("/uploads/" +:+ name)))
            (fst (ServerAlt.parseMP3Metadata E (upload_path E name)
                    (emit (EvReadFile (upload_path E name) (Some data))
                       (before_check_alt E name w))))
        else emit (EvReadFile (upload_path E name) (Some data)) (before_check_alt E name w)
    end.
Proof.
  rewrite upload_handler_alt_run, checkMagicNumber_alt_run.
  destruct (fs (before_check_alt E name w) !! upload_path E name) as [data|] eqn:Hdata;
    [|reflexivity].
  destruct (has_signature data); [|reflexivity].
  unfold task, ServerAlt.on_checked, ServerAlt.then_catch, bind.
  rewrite (parseMP3Metadata_alt_run E _ data) by exact Hdata.
  cbn [fst]. destruct (sanitized E data); js_done.
Qed.

(** X11: the handler of this server records the path of the request in
    [lastFile] before it has looked at the file, so [lastFile] holds that
    path when the handler is done, whatever became of the file. *)
Theorem lastFile_is_set_unconditionally (E : Env) (file : File) (name : string)
    (w : ServerAlt.W) :
  ServerAlt.lastFile (fst (ServerAlt.upload_handler E (request_of file name) w))
  = upload_path E name.
Proof.
  rewrite upload_handler_alt_world. unfold ServerAlt.lastFile.
  destruct (fs (before_check_alt E name w) !! upload_path E name) as [data|] eqn:Hdata.
  - destruct (has_signature data).
    + rewrite (parseMP3Metadata_alt_run E _ data) by exact Hdata.
      cbn [fst emit global]. destruct (sanitized E data); apply before_check_alt_global.
    + apply before_check_alt_global.
  - apply before_check_alt_global.
Qed.

Lemma before_check_alt_uncaught (E : Env) (name : string) (w : ServerAlt.W) :
  ServerAlt.lastFile w = EmptyString \/ is_Some (fs w !! ServerAlt.lastFile w) ->
  uncaught (trace (before_check_alt E name w)) = uncaught (trace w).
Proof.
  intros Hprev. rewrite before_check_alt_world.
  destruct (ServerAlt.lastFile w) as [|c previous].
  - cbn. rewrite uncaught_app. cbn. now rewrite app_nil_r.
  - cbv beta iota zeta. destruct Hprev as [Hempty|[old Hold]]; [discriminate|].
    rewrite Hold. cbn. rewrite uncaught_app. cbn. now rewrite app_nil_r.
Qed.

(** X12: in this server, when [lastFile] is empty or names a file that
    is on the disk, a file that has the signature and fails to parse is
    deleted and the request is answered all the same with the JSON of a
    success, which names the deleted file; no exception escapes on the
    way. *)
Theorem lastFile_server_answers_failed_parse (E : Env) (file : File) (name : string)
    (w : ServerAlt.W) (data : Buffer) :
  ServerAlt.lastFile w = EmptyString \/ is_Some (fs w !! ServerAlt.lastFile w) ->
  fs (before_check_alt E name w) !! upload_path E name = Some data ->
  has_signature data = true ->
  sanitized E data = None ->
  responses (trace (fst (ServerAlt.upload_handler E (request_of file name) w)))
  = responses (trace w) ++ [ResJson ("/uploads/" +:+ name)]
  /\ fs (fst (ServerAlt.upload_handler E (request_of file name) w)) !! upload_path E name
     = None
  /\ uncaught (trace (fst (ServerAlt.upload_handler E (request_of file name) w)))
     = uncaught (trace w).
Proof.
  intros Hprev Hdata Hsig Hsan.
  rewrite upload_handler_alt_world, Hdata, Hsig.
  rewrite (parseMP3Metadata_alt_run E _ data) by exact Hdata. rewrite Hsan.
  cbn [fst emit fs trace]. split; [|split; [apply lookup_delete_eq|]].
  - rewrite !responses_app, before_check_alt_responses.
    destruct (mm_parseFile E data); cbn; now rewrite !app_nil_r.
  - rewrite !uncaught_app, (before_check_alt_uncaught E name w Hprev).
    destruct (mm_parseFile E data); cbn; now rewrite !app_nil_r.
Qed.

(** In [serving_alt truncated_mp3] the file [lastFile] names is on the
    disk. *)
Lemma lastFile_server_answers_failed_parse_witness :
  responses (trace (served_alt truncated_mp3))
  = [ResJson "/uploads/mp3file-1700000000042-5"]
  /\ fs (served_alt truncated_mp3) !! new_path = None
  /\ uncaught (trace (served_alt truncated_mp3)) = [].
Proof.
  apply (lastFile_server_answers_failed_parse sample_env (sample_file truncated_mp3)
           new_name (serving_alt truncated_mp3) truncated_mp3);
    [right; vm_compute; eauto|vm_compute; reflexivity..].
Defined.

(** X13: the handler of this server sends at most one response, and
    never the status 500 its [catch] would send: [parseMP3Metadata]
    lets no rejection out. *)
Theorem lastFile_server_answers_success_or_nothing (E : Env) (file : File) (name : string)
    (w : ServerAlt.W) :
  responses (trace (fst (ServerAlt.upload_handler E (request_of file name) w)))
  = responses (trace w)
  \/ responses (trace (fst (ServerAlt.upload_handler E (request_of file name) w)))
     = responses (trace w) ++ [ResJson ("/uploads/" +:+ name)].
Proof.
  rewrite upload_handler_alt_world.
  destruct (fs (before_check_alt E name w) !! upload_path E name) as [data|] eqn:Hdata.
  - destruct (has_signature data).
    + right. rewrite (parseMP3Metadata_alt_run E _ data) by exact Hdata.
      cbn [fst emit trace].
      destruct (sanitized E data); cbn [trace];
        rewrite !responses_app, before_check_alt_responses;
        [|destruct (mm_parseFile E data)]; cbn; now rewrite !app_nil_r.
    + left. cbn. rewrite responses_app, before_check_alt_responses. cbn.
      now rewrite app_nil_r.
  - left. cbn. rewrite <- app_assoc, responses_app, before_check_alt_responses. cbn.
    now rewrite app_nil_r.
Qed.

(** X14: when the file [lastFile] names is no longer there, the
    callback of [fs.unlink] throws the error it is given and nothing
    catches it: the exception escapes before the new file is looked
    at. *)
Theorem lastFile_server_throws_on_missing_previous (E : Env) (file : File) (name : string)
    (w : ServerAlt.W) :
  ServerAlt.lastFile w <> EmptyString ->
  fs w !! ServerAlt.lastFile w = None ->
  exists later,
    uncaught (trace (fst (ServerAlt.upload_handler E (request_of file name) w)))
    = uncaught (trace w) ++ ENOENT "unlink" (ServerAlt.lastFile w) :: later.
Proof.
  intros Hset Hgone.
  assert (exists evs,
            trace (before_check_alt E name w) = trace w ++ evs
            /\ uncaught evs = [ENOENT "unlink" (ServerAlt.lastFile w)]) as (evs & Htr & Hu).
  { rewrite before_check_alt_world.
    destruct (ServerAlt.lastFile w) as [|c previous]; [congruence|].
    cbv beta iota zeta. rewrite Hgone. eexists. split; reflexivity. }
  rewrite upload_handler_alt_world.
  destruct (fs (before_check_alt E name w) !! upload_path E name) as [data|] eqn:Hdata.
  - destruct (has_signature data).
    + rewrite (parseMP3Metadata_alt_run E _ data) by exact Hdata.
      cbn [fst emit trace].
      destruct (sanitized E data); cbn [trace]; rewrite Htr, <- !app_assoc;
        rewrite (uncaught_app (trace w)), (uncaught_app evs), Hu;
        eexists; reflexivity.
    + cbn [emit trace]. rewrite Htr, <- !app_assoc.
      rewrite (uncaught_app (trace w)), (uncaught_app evs), Hu. eexists. reflexivity.
  - cbn [emit trace]. rewrite Htr, <- !app_assoc.
    rewrite (uncaught_app (trace w)), (uncaught_app evs), Hu. eexists. reflexivity.
Qed.

(** After the upload of [truncated_mp3], which this server answered with
    a success, [lastFile] names the file it deleted: the next upload
    meets the case of the theorem. *)
Lemma lastFile_server_throws_on_missing_previous_witness :
  exists later,
    uncaught (trace (fst (ServerAlt.upload_handler sample_env
                            (request_of (sample_file tagged_mp3) new_name)
                            (served_alt truncated_mp3))))
    = uncaught (trace (served_alt truncated_mp3))
      ++ ENOENT "unlink" (ServerAlt.lastFile (served_alt truncated_mp3)) :: later.
Proof.
  apply (lastFile_server_throws_on_missing_previous sample_env (sample_file tagged_mp3)
           new_name (served_alt truncated_mp3)); vm_compute; [discriminate|reflexivity].
Defined.

(** * More of the browser script *)

Lemma length_append (a b : string) :
  String.length (a +:+ b) = (String.length a + String.length b)%nat.
Proof.
  induction a as [|c a IH]; [reflexivity|].
  rewrite append_cons. cbn. now rewrite IH.
Qed.

(** X15: [validateFile] returns [true] exactly for a file of type
    audio/mpeg, of less than 7,000,000 bytes, whose name is a non-empty
    stem of allowed characters followed by [.mp3] and has at most 70
    characters. *)
Theorem validateFile_accepts_exactly (f : Client.BrowserFile) :
  snd (Client.validateFile f) = true
  <-> Client.type f = "audio/mpeg"
      /\ Client.size f < 7000000
      /\ Client.well_formed_name (Client.name f)
      /\ (String.length (Client.name f) <= 70)%nat.
Proof.
  unfold Client.validateFile.
  destruct (String.eqb_spec (Client.type f) "audio/mpeg") as [Htype|Htype]; cbn [negb];
    [|split; [discriminate|tauto]].
  destruct (Z.geb_spec (Client.size f) 7000000) as [Hsize|Hsize];
    [split; [discriminate|lia]|].
  destruct (Client.test Client.regexName (Client.name f)) eqn:Htest; cbn [negb orb].
  - apply regexName_well_formed in Htest.
    destruct (Z.gtb_spec (Z.of_nat (String.length (Client.name f))) 70) as [Hlen|Hlen].
    + split; [discriminate|lia].
    + split; [intros _; repeat split; [assumption..|lia]|reflexivity].
  - split; [discriminate|]. intros (_ & _ & Hname & _).
    apply regexName_well_formed in Hname. congruence.
Qed.

Lemma validateFile_accepts_exactly_aux (f : Client.BrowserFile) :
  snd (Client.validateFile f) = true ->
  Client.well_formed_name (Client.name f) /\ (String.length (Client.name f) <= 70)%nat.
Proof.
  unfold Client.validateFile.
  destruct (negb (String.eqb (Client.type f) "audio/mpeg")); [discriminate|].
  destruct (Client.size f >=? 7000000); [discriminate|].
  destruct (Client.test Client.regexName (Client.name f)) eqn:Htest; [|discriminate].
  apply regexName_well_formed in Htest. cbn [negb orb].
  destruct (Z.gtb_spec (Z.of_nat (String.length (Client.name f))) 70); [discriminate|].
  intros _. split; [assumption|lia].
Qed.

Lemma well_formed_name_chars (s : string) :
  Client.well_formed_name s ->
  Client.all_chars Client.allowed_char s = true /\ (5 <= String.length s)%nat.
Proof.
  intros (stem & -> & Hne & Hall). split.
  - now rewrite all_chars_app, Hall.
  - rewrite length_append. destruct stem; [congruence|]. cbn. lia.
Qed.

(** X16: a name [validateFile] accepts has between 5 and 70 characters,
    all of them letters, digits, hyphen, underscore, parentheses, period
    or space: it holds no slash and no backslash. *)
Theorem accepted_name_is_plain (f : Client.BrowserFile) :
  snd (Client.validateFile f) = true ->
  (5 <= String.length (Client.name f) <= 70)%nat
  /\ Client.all_chars Client.allowed_char (Client.name f) = true
  /\ Client.all_chars
       (fun c => negb (Ascii.eqb c "/") && negb (Ascii.eqb c (ascii_of_nat 92)))
       (Client.name f) = true.
Proof.
  intros H. apply validateFile_accepts_exactly_aux in H as (Hname & Hlen).
  apply well_formed_name_chars in Hname as [Hall Hmin].
  split; [lia|]. split; [exact Hall|].
  revert Hall. apply all_chars_weaken.
  intros [b0 b1 b2 b3 b4 b5 b6 b7].
  destruct b0, b1, b2, b3, b4, b5, b6, b7; vm_compute; congruence.
Qed.

Lemma accepted_name_is_plain_witness :
  (5 <= String.length "track-01.mp3" <= 70)%nat
  /\ Client.all_chars Client.allowed_char "track-01.mp3" = true
  /\ Client.all_chars
       (fun c => negb (Ascii.eqb c "/") && negb (Ascii.eqb c (ascii_of_nat 92)))
       "track-01.mp3" = true.
Proof.
  apply (accepted_name_is_plain (Client.MkBrowserFile "track-01.mp3" "audio/mpeg" 50)).
  reflexivity.
Defined.

(** * The search route *)

(** X17: the search handler of the server that keeps [lastFile] sends
    exactly one response to every request and lets nothing escape; the
    status is 400 exactly when the validation found an error, and the
    search API is called exactly when the validation found none and the
    query can be encoded (a query with a lone surrogate makes
    [encodeURIComponent] throw inside the [try]: no fetch, status
    500). *)
Theorem search_alt_answers_once (E : Search.Env) (req : Search.Request) :
  exists status body,
    Search.sends (Search.search_handler_alt E req) = [(status, body)]
    /\ (status = 400 <-> Search.errors req <> [])
    /\ Search.unhandled (Search.search_handler_alt E req) = []
    /\ length (Search.fetches (Search.search_handler_alt E req))
       = match Search.errors req with
         | [] => if Search.has_lone_surrogate (Search.query req) then 0%nat else 1%nat
         | _ :: _ => 0%nat
         end.
Proof.
  unfold Search.search_handler_alt, Search.encode_query.
  destruct (Search.errors req) as [|first rest].
  - destruct (Search.has_lone_surrogate (Search.query req)).
    + cbn. eexists _, _. split; [reflexivity|]. split; [|split; reflexivity].
      split; congruence.
    + cbv zeta. destruct (Search.fetch_json E _) as [error|data]; cbn;
        eexists _, _; (split; [reflexivity|]); (split; [|split; reflexivity]);
        split; congruence.
  - cbn. eexists _, _. split; [reflexivity|]. split; [|split; reflexivity].
    split; congruence.
Qed.

(** A query that is one lone surrogate passes for valid, is not
    fetched, and is answered with status 500. *)
Example search_alt_on_lone_surrogate :
  Search.search_handler_alt online (Search.MkRequest lone_surrogate_query [])
  = [Search.ConsoleError (Search.fetch_failed Search.URIError);
     Search.Send 500 (Search.BodyText "Error while fetching data.")].
Proof. reflexivity. Qed.

(** X18: in the server that keeps [currentFilePath], a search whose
    fetch fails is answered with status 500 and then runs into the
    [res.send] after the [if]: the response is already out, the call
    throws, and the rejection of the handler is left unhandled. *)
Theorem search_fetch_failure_sends_twice (E : Search.Env) (req : Search.Request)
    (error : Exn) :
  Search.errors req = [] ->
  Search.fetch_json E (Search.search_url E (Search.encodeURIComponent (Search.query req)))
  = inl error ->
  Search.sends (Search.search_handler E req)
  = [(500, Search.BodyText "Error while fetching data.")]
  /\ Search.unhandled (Search.search_handler E req) = [Search.ERR_HTTP_HEADERS_SENT].
Proof.
  intros Herrors Hfetch. unfold Search.search_handler, Search.encode_query.
  rewrite Herrors.
  destruct (Search.has_lone_surrogate (Search.query req)).
  - cbn. split; reflexivity.
  - cbv zeta. rewrite Hfetch. cbn. split; reflexivity.
Qed.

Lemma search_fetch_failure_sends_twice_witness :
  Search.sends (Search.search_handler offline (Search.MkRequest "rocq prover" []))
  = [(500, Search.BodyText "Error while fetching data.")]
  /\ Search.unhandled (Search.search_handler offline (Search.MkRequest "rocq prover" []))
     = [Search.ERR_HTTP_HEADERS_SENT].
Proof.
  apply (search_fetch_failure_sends_twice offline (Search.MkRequest "rocq prover" [])
           (MkExn "TypeError" "fetch failed")); reflexivity.
Defined.

(** ** The encoding of the query *)

Lemma encode_chars (p : ascii -> bool) (s : string) :
  (forall c, Search.unreserved c = true -> p c = true) ->
  (forall c, Client.all_chars p (Search.percent c) = true) ->
  Client.all_chars p (Search.encodeURIComponent s) = true.
Proof.
  intros Hplain Hpercent. induction s as [|c s IH]; [reflexivity|].
  cbn [Search.encodeURIComponent]. rewrite all_chars_app, IH, andb_true_r.
  destruct (Search.unreserved c) eqn:Hc; [|apply Hpercent].
  cbn. now rewrite (Hplain c Hc).
Qed.

(** X20: the encoded query is made of unreserved characters and percent
    signs only; it holds none of the characters that structure a URL
    (ampersand, equals sign, question mark, hash, slash) and no space,
    so the query cannot add or end a parameter of the request to the
    search API. *)
Theorem encoded_query_is_inert (s : string) :
  Client.all_chars (fun c => Search.unreserved c || Ascii.eqb c "%")
    (Search.encodeURIComponent s) = true
  /\ Client.all_chars
       (fun c => negb (existsb (Ascii.eqb c) ["&"; "="; "?"; "#"; "/"; " "]%char))
       (Search.encodeURIComponent s) = true.
Proof.
  split; apply encode_chars.
  - intros c ->. reflexivity.
  - intros [b0 b1 b2 b3 b4 b5 b6 b7].
    destruct b0, b1, b2, b3, b4, b5, b6, b7; vm_compute; reflexivity.
  - intros [b0 b1 b2 b3 b4 b5 b6 b7].
    destruct b0, b1, b2, b3, b4, b5, b6, b7; vm_compute; congruence.
  - intros [b0 b1 b2 b3 b4 b5 b6 b7].
    destruct b0, b1, b2, b3, b4, b5, b6, b7; vm_compute; reflexivity.
Qed.

Lemma percent_value_percent (c : ascii) :
  Search.percent_value (Search.HEX_digit (N_of_ascii c / 16))
    (Search.HEX_digit (N_of_ascii c mod 16)) = c.
Proof.
  destruct c as [b0 b1 b2 b3 b4 b5 b6 b7].
  destruct b0, b1, b2, b3, b4, b5, b6, b7; vm_compute; reflexivity.
Qed.

Lemma percent_inj (c c' : ascii) : Search.percent c = Search.percent c' -> c = c'.
Proof.
  unfold Search.percent. intros [= Hhi Hlo].
  rewrite <- (percent_value_percent c), <- (percent_value_percent c').
  now rewrite Hhi, Hlo.
Qed.

Lemma encode_cons (c : ascii) (s : string) :
  Search.encodeURIComponent (String c s)
  = if Search.unreserved c
    then String c (Search.encodeURIComponent s)
    else String "%" (String (Search.HEX_digit (N_of_ascii c / 16))
                       (String (Search.HEX_digit (N_of_ascii c mod 16))
                          (Search.encodeURIComponent s))).
Proof. cbn [Search.encodeURIComponent]. now destruct (Search.unreserved c). Qed.

Lemma encodeURIComponent_inj (s s' : string) :
  Search.encodeURIComponent s = Search.encodeURIComponent s' -> s = s'.
Proof.
  revert s'. induction s as [|c s IH]; intros [|c' s']; rewrite ?encode_cons; intros H.
  - reflexivity.
  - destruct (Search.unreserved c'); discriminate.
  - destruct (Search.unreserved c); discriminate.
  - destruct (Search.unreserved c) eqn:Hc, (Search.unreserved c') eqn:Hc'.
    + injection H as -> H. now rewrite (IH s' H).
    + injection H as -> _. discriminate.
    + injection H as <- _. discriminate.
    + injection H as Hhi Hlo H.
      assert (c = c') as ->.
      { apply percent_inj. unfold Search.percent. now rewrite Hhi, Hlo. }
      now rewrite (IH s' H).
Qed.

(** X21: different queries are encoded differently, and so are sent to
    different URLs: the encoding loses nothing of the query. *)
Theorem search_url_tells_the_query (E : Search.Env) (q q' : string) :
  Search.search_url E (Search.encodeURIComponent q)
  = Search.search_url E (Search.encodeURIComponent q') ->
  q = q'.
Proof.
  unfold Search.search_url. intros H.
  do 5 apply String.app_inj in H.
  now apply encodeURIComponent_inj.
Qed.

Lemma search_url_tells_the_query_witness : "a&b=c" = "a&b=c".
Proof.
  apply (search_url_tells_the_query online "a&b=c" "a&b=c"). reflexivity.
Defined.

(** * An invariant of the published path *)

(** X22: in every world the server reaches, [currentFilePath] is [null]
    or names a file of the uploads directory whose name is made of
    letters, digits and hyphens: the variable never holds a path a client
    chose. *)
Theorem currentFilePath_stays_in_uploads (E : Env) (w : Server.W) :
  Server.reachable E w -> slot_in_uploads E w.
Proof.
  induction 1 as [disk | w part clock Hreach IH].
  - now left.
  - destruct (post_upload_refused_or_handled E part clock w)
      as [(_ & msg & ->) | (file & _ & Hfield & _ & _ & H)].
    + exact IH.
    + apply handled_answers in H as [(_ & Hg & _) | (_ & Hg & _)].
      * unfold slot_in_uploads, Server.currentFilePath in *.
        now rewrite Hg.
      * right. exists (storage_filename file clock). split; [exact Hg|].
        now apply storage_filename_plain.
Qed.

Lemma currentFilePath_stays_in_uploads_witness : slot_in_uploads sample_env second_upload.
Proof.
  apply (currentFilePath_stays_in_uploads sample_env second_upload).
  apply Server.reach_upload, Server.reach_upload, Server.reach_init.
Defined.
